(** * AI Picture Styler: a shallow embedding of [src/App.tsx]

    The application is one React component that owns eight state cells and a
    handful of event handlers.  Each handler is embedded as a function from
    the state record (plus the handler's inputs) to the new state; the two
    asynchronous operations (the [FileReader] load and the remote
    [generateContent] call) are split at their suspension point into the part
    that runs on the event and the continuation that runs on completion.

    JavaScript strings are represented by [string] holding their UTF-8
    encoding, so the message literals of the source appear verbatim. *)

From Stdlib Require Import String Ascii List Bool Arith Lia.
From Stdlib Require Import NArith DecimalString.
Import ListNotations.
Open Scope string_scope.

(** ** JavaScript string primitives used by the component *)

Module Js.

(** Truthiness of a string: only the empty string is falsy. *)
Definition truthy (s : string) : bool := negb (s =? "").

(** Truthiness of a [string | null | undefined] value. *)
Definition truthy_opt (o : option string) : bool :=
  match o with
  | Some s => truthy s
  | None => false
  end.

(** [a || b] on a possibly-undefined string and a string default. *)
Definition or_else (o : option string) (d : string) : string :=
  match o with
  | Some s => if truthy s then s else d
  | None => d
  end.

(** [s.startsWith(p)]. *)
Definition startsWith (s p : string) : bool := String.prefix p s.

(** [s.split(sep)] for a one-character separator: every occurrence of the
    separator cuts, and the result always has at least one segment. *)
Fixpoint split (sep : ascii) (s : string) : list string :=
  match s with
  | EmptyString => [EmptyString]
  | String c r =>
      if Ascii.eqb c sep then EmptyString :: split sep r
      else match split sep r with
           | h :: t => String c h :: t
           | [] => [String c EmptyString]
           end
  end.

(** [xs[i]], [undefined] out of range. *)
Definition index {A : Type} (xs : list A) (i : nat) : option A := nth_error xs i.

(** The code points that [String.prototype.trim] removes (ECMAScript
    WhiteSpace and LineTerminator), each by its UTF-8 encoding.
    One byte: TAB, LF, VT, FF, CR, SPACE. *)
Definition ws1 (a : ascii) : bool :=
  let n := nat_of_ascii a in
  ((9 <=? n) && (n <=? 13) || (n =? 32))%nat.

(** Two bytes: U+00A0. *)
Definition ws2 (a b : ascii) : bool :=
  ((nat_of_ascii a =? 194) && (nat_of_ascii b =? 160))%nat.

(** Three bytes: U+1680, U+2000..U+200A, U+2028, U+2029, U+202F, U+205F,
    U+3000, U+FEFF. *)
Definition ws3 (a b c : ascii) : bool :=
  let x := nat_of_ascii a in
  let y := nat_of_ascii b in
  let z := nat_of_ascii c in
  ((x =? 225) && (y =? 154) && (z =? 128)
   || (x =? 226) && (y =? 128)
      && ((128 <=? z) && (z <=? 138) || (z =? 168) || (z =? 169) || (z =? 175))
   || (x =? 226) && (y =? 129) && (z =? 159)
   || (x =? 227) && (y =? 128) && (z =? 128)
   || (x =? 239) && (y =? 187) && (z =? 191))%nat.

(** [s.trimStart()]. *)
Fixpoint trimStart (s : string) : string :=
  match s with
  | EmptyString => EmptyString
  | String a s1 =>
      if ws1 a then trimStart s1
      else match s1 with
           | EmptyString => s
           | String b s2 =>
               if ws2 a b then trimStart s2
               else match s2 with
                    | EmptyString => s
                    | String c s3 => if ws3 a b c then trimStart s3 else s
                    end
           end
  end.

Fixpoint rev_onto (s acc : string) : string :=
  match s with
  | EmptyString => acc
  | String c r => rev_onto r (String c acc)
  end.

Definition rev (s : string) : string := rev_onto s EmptyString.

(** [trimStart] on the reversed string: the encodings are matched back to
    front. *)
Fixpoint trimStart_rev (s : string) : string :=
  match s with
  | EmptyString => EmptyString
  | String a s1 =>
      if ws1 a then trimStart_rev s1
      else match s1 with
           | EmptyString => s
           | String b s2 =>
               if ws2 b a then trimStart_rev s2
               else match s2 with
                    | EmptyString => s
                    | String c s3 => if ws3 c b a then trimStart_rev s3 else s
                    end
           end
  end.

(** [s.trimEnd()]. *)
Definition trimEnd (s : string) : string := rev (trimStart_rev (rev s)).

(** [s.trim()]. *)
Definition trim (s : string) : string := trimEnd (trimStart s).

End Js.

(** ** The style catalog *)

Record StylePreset := mkStyle {
  id : string;
  label : string;
  description : string;
  prompt : string
}.

Definition PRESET_STYLES : list StylePreset :=
  [ mkStyle "anime" "動漫風格"
      "Inspired by Japanese animation with vibrant colors and distinct character designs."
      "Anime style, Studio Ghibli, high quality, vibrant colors, 2D illustration";
    mkStyle "cyberpunk" "賽博龐克"
      "Futuristic sci-fi aesthetic with neon lights and high-tech elements."
      "Cyberpunk style, neon lights, futuristic city, highly detailed, sci-fi";
    mkStyle "watercolor" "水彩畫"
      "Artistic painting style with soft edges and expressive brush strokes."
      "Watercolor painting style, artistic, soft edges, expressive brush strokes";
    mkStyle "sketch" "鉛筆素描"
      "Detailed black and white hand-drawn pencil illustration."
      "Pencil sketch style, detailed, black and white, hand-drawn";
    mkStyle "3d" "3D 渲染"
      "High-quality 3D computer graphics similar to modern animated films."
      "3D render, Pixar style, Unreal Engine 5, volumetric lighting, cute" ].

(** ** Application state: the eight [useState] cells of [App] *)

Record State := mkState {
  originalImage : option string;
  mimeType : string;
  selectedStyle : string;
  customStyle : string;
  generatedImage : option string;
  isGenerating : bool;
  error : option string;
  isDragging : bool
}.

(** [PRESET_STYLES[0].id], the initial value of [selectedStyle]. *)
Definition first_style_id : string :=
  match PRESET_STYLES with
  | s :: _ => id s
  | [] => ""
  end.

Definition initial : State :=
  {| originalImage := None;
     mimeType := "";
     selectedStyle := first_style_id;
     customStyle := "";
     generatedImage := None;
     isGenerating := false;
     error := None;
     isDragging := false |}.

(** The state setters returned by [useState]. *)
Definition setOriginalImage (v : option string) (st : State) : State :=
  {| originalImage := v; mimeType := mimeType st;
     selectedStyle := selectedStyle st; customStyle := customStyle st;
     generatedImage := generatedImage st; isGenerating := isGenerating st;
     error := error st; isDragging := isDragging st |}.

Definition setMimeType (v : string) (st : State) : State :=
  {| originalImage := originalImage st; mimeType := v;
     selectedStyle := selectedStyle st; customStyle := customStyle st;
     generatedImage := generatedImage st; isGenerating := isGenerating st;
     error := error st; isDragging := isDragging st |}.

Definition setSelectedStyle (v : string) (st : State) : State :=
  {| originalImage := originalImage st; mimeType := mimeType st;
     selectedStyle := v; customStyle := customStyle st;
     generatedImage := generatedImage st; isGenerating := isGenerating st;
     error := error st; isDragging := isDragging st |}.

Definition setCustomStyle (v : string) (st : State) : State :=
  {| originalImage := originalImage st; mimeType := mimeType st;
     selectedStyle := selectedStyle st; customStyle := v;
     generatedImage := generatedImage st; isGenerating := isGenerating st;
     error := error st; isDragging := isDragging st |}.

Definition setGeneratedImage (v : option string) (st : State) : State :=
  {| originalImage := originalImage st; mimeType := mimeType st;
     selectedStyle := selectedStyle st; customStyle := customStyle st;
     generatedImage := v; isGenerating := isGenerating st;
     error := error st; isDragging := isDragging st |}.

Definition setIsGenerating (v : bool) (st : State) : State :=
  {| originalImage := originalImage st; mimeType := mimeType st;
     selectedStyle := selectedStyle st; customStyle := customStyle st;
     generatedImage := generatedImage st; isGenerating := v;
     error := error st; isDragging := isDragging st |}.

Definition setError (v : option string) (st : State) : State :=
  {| originalImage := originalImage st; mimeType := mimeType st;
     selectedStyle := selectedStyle st; customStyle := customStyle st;
     generatedImage := generatedImage st; isGenerating := isGenerating st;
     error := v; isDragging := isDragging st |}.

Definition setIsDragging (v : bool) (st : State) : State :=
  {| originalImage := originalImage st; mimeType := mimeType st;
     selectedStyle := selectedStyle st; customStyle := customStyle st;
     generatedImage := generatedImage st; isGenerating := isGenerating st;
     error := error st; isDragging := v |}.

(** ** Image intake *)

(** A browser [File]: its declared media type and its bytes. *)
Record File := mkFile {
  type : string;
  bytes : string
}.

Definition MSG_NOT_IMAGE : string := "請上傳圖片檔案 (JPEG, PNG 等)".

(** [processFile], up to and including [reader.readAsDataURL(file)].  The
    second component is the file whose read has been started, if any; its
    [onload] callback runs later. *)
Definition processFile (file : File) (st : State) : State * option File :=
  if negb (Js.startsWith (type file) "image/") then
    (setError (Some MSG_NOT_IMAGE) st, None)
  else
    (st, Some file).

(** The [reader.onload] callback registered by [processFile file]; [result]
    is [event.target.result], the data-URI the platform produced. *)
Definition reader_onload (file : File) (result : string) (st : State) : State :=
  setError None
    (setGeneratedImage None
       (setMimeType (type file)
          (setOriginalImage (Some result) st))).

Definition handleFileChange (files0 : option File) (st : State)
  : State * option File :=
  match files0 with
  | Some file => processFile file st
  | None => (st, None)
  end.

Definition handleDragOver (st : State) : State := setIsDragging true st.

Definition handleDragLeave (st : State) : State := setIsDragging false st.

Definition handleDrop (files0 : option File) (st : State)
  : State * option File :=
  let st1 := setIsDragging false st in
  match files0 with
  | Some file => processFile file st1
  | None => (st1, None)
  end.

(** The [onClick] of the remove-image button.  Resetting the file input's
    value touches no state cell. *)
Definition removeImage (st : State) : State :=
  setGeneratedImage None (setOriginalImage None st).

(** ** The remote service's request and response shapes *)

Module Genai.

(** Modelled from the spec: the client library's type declarations are not
    part of the sources.  A request carries a model name and one content
    made of parts; a response carries an optional list of candidates, each
    with a content made of parts; a part may carry text or inline data;
    inline data is a payload with an optional media type.  The payload is
    optional as well because the component itself may pass [undefined]
    there (the second segment of a split that found no comma). *)
Record Blob := mkBlob {
  data : option string;
  mimeType : option string
}.

Record Part := mkPart {
  inlineData : option Blob;
  text : option string
}.

Record Content := mkContent {
  parts : list Part
}.

Record Candidate := mkCandidate {
  content : Content
}.

Record Response := mkResponse {
  candidates : option (list Candidate)
}.

Record Request := mkRequest {
  model : string;
  contents : Content
}.

(** A value caught by [catch (err: any)]: all the handler reads from it is
    [err.message]. *)
Record Thrown := mkThrown {
  message : option string
}.

(** How the awaited [generateContent] promise settles. *)
Inductive Outcome :=
| Resolved (response : Response)
| Rejected (err : Thrown).

End Genai.

(** Interpolation of a possibly-undefined string into a template literal. *)
Definition interpolate (o : option string) : string :=
  match o with
  | Some s => s
  | None => "undefined"
  end.

(** ** The generation handler *)

Definition MSG_NO_IMAGE : string := "請先上傳圖片".
Definition MSG_NO_STYLE : string := "請選擇或輸入風格".
Definition MSG_NO_RESULT : string := "無法生成圖片，請稍後再試".
Definition MSG_FALLBACK : string := "發生錯誤，請稍後再試".
Definition MODEL : string := "gemini-2.5-flash-image".

(** [promptText]: the custom text, or the prompt of the catalog entry found
    by id ([undefined] when [find] finds none). *)
Definition promptText (st : State) : option string :=
  if selectedStyle st =? "custom" then Some (customStyle st)
  else option_map prompt
         (find (fun s => id s =? selectedStyle st) PRESET_STYLES).

(** [!promptText || promptText.trim() === ''] *)
Definition prompt_missing (p : option string) : bool :=
  match p with
  | None => true
  | Some s => negb (Js.truthy s) || (Js.trim s =? "")
  end.

(** The text part of the request. *)
Definition instruction (p : string) : string :=
  "Convert this image to the following style: " ++ p
  ++ ". Keep the main subject and composition the same.".

(** [originalImage.split(',')[1]] *)
Definition base64Data (img : string) : option string :=
  Js.index (Js.split "," img) 1.

Definition build_request (img mime p : string) : Genai.Request :=
  Genai.mkRequest MODEL
    (Genai.mkContent
       [ Genai.mkPart (Some (Genai.mkBlob (base64Data img) (Some mime))) None;
         Genai.mkPart None (Some (instruction p)) ]).

(** [handleGenerate] up to the [await]: the two guards, the two state
    updates, and the request handed to the client (if the guards pass). *)
Definition handleGenerate_start (st : State) : State * option Genai.Request :=
  match originalImage st with
  | None => (setError (Some MSG_NO_IMAGE) st, None)
  | Some img =>
      if negb (Js.truthy img) then (setError (Some MSG_NO_IMAGE) st, None)
      else
        let p := promptText st in
        if prompt_missing p then (setError (Some MSG_NO_STYLE) st, None)
        else
          (setError None (setIsGenerating true st),
           Some (build_request img (mimeType st) (interpolate p)))
  end.

(** The data-URI built from an inline-data part of the response. *)
Definition imgUrl (b : Genai.Blob) : string :=
  "data:" ++ Js.or_else (Genai.mimeType b) "image/png"
  ++ ";base64," ++ interpolate (Genai.data b).

(** The [for ... of] loop over the parts, with its [break]; the boolean is
    [foundImage]. *)
Fixpoint scan_parts (ps : list Genai.Part) (st : State) : State * bool :=
  match ps with
  | [] => (st, false)
  | part :: rest =>
      match Genai.inlineData part with
      | Some b => (setGeneratedImage (Some (imgUrl b)) st, true)
      | None => scan_parts rest st
      end
  end.

(** The [try] block after the [await]: either it completes, or it throws. *)
Definition try_block (o : Genai.Outcome) (st : State)
  : State * option Genai.Thrown :=
  match o with
  | Genai.Rejected err => (st, Some err)
  | Genai.Resolved response =>
      let '(st1, foundImage) :=
        match Genai.candidates response with
        | Some (c :: _) => scan_parts (Genai.parts (Genai.content c)) st
        | _ => (st, false)
        end in
      if negb foundImage
      then (st1, Some (Genai.mkThrown (Some MSG_NO_RESULT)))
      else (st1, None)
  end.

Definition catch_block (err : Genai.Thrown) (st : State) : State :=
  setError (Some (Js.or_else (Genai.message err) MSG_FALLBACK)) st.

Definition finally_block (st : State) : State := setIsGenerating false st.

(** [handleGenerate] from the [await] on, run on the state current at that
    moment. *)
Definition handleGenerate_resume (o : Genai.Outcome) (st : State) : State :=
  let '(st1, thrown) := try_block o st in
  finally_block
    match thrown with
    | Some err => catch_block err st1
    | None => st1
    end.

(** One whole invocation against a service that answers [service request],
    with no other event in between. *)
Definition handleGenerate (service : Genai.Request -> Genai.Outcome)
  (st : State) : State :=
  match handleGenerate_start st with
  | (st1, Some request) => handleGenerate_resume (service request) st1
  | (st1, None) => st1
  end.

(** The [disabled] attribute of the generate button. *)
Definition generate_disabled (st : State) : bool :=
  negb (Js.truthy_opt (originalImage st))
  || isGenerating st
  || (selectedStyle st =? "custom") && negb (Js.truthy (Js.trim (customStyle st))).

(** ** Download *)

(** The transient [<a>] element the download handler builds. *)
Record Anchor := mkAnchor {
  href : string;
  download : string
}.

(** Interpolation of [Date.now()], a non-negative integer number of
    milliseconds, into a template literal: its decimal digits. *)
Definition decimal (n : N) : string := NilZero.string_of_uint (N.to_uint n).

(** [handleDownload]: nothing without a generated image; otherwise the
    anchor that is appended to the document body, clicked and removed again.
    [now] is the value of [Date.now()].  No state cell is written. *)
Definition handleDownload (now : N) (st : State) : option Anchor :=
  match generatedImage st with
  | None => None
  | Some url =>
      if negb (Js.truthy url) then None
      else Some (mkAnchor url ("styled-image-" ++ decimal now ++ ".png"))
  end.

(** ** The component as an event-driven system

    Besides the state cells, the running page holds the file reads that have
    been started and the requests that are in flight; their completions are
    events like the user's. *)

Record World := mkWorld {
  ui : State;
  reading : list File;
  inflight : list Genai.Request
}.

Inductive Event :=
| FileChange (files0 : option File)
| DragOver
| DragLeave
| Drop (files0 : option File)
| RemoveImage
| ChoosePreset (n : nat)
| ChooseCustom
| EditCustom (value : string)
| Generate
| ReaderLoad (k : nat) (result : string)
| Settle (k : nat) (o : Genai.Outcome).

Definition boot : World := mkWorld initial [] [].

Definition opt_to_list {A : Type} (o : option A) : list A :=
  match o with
  | Some a => [a]
  | None => []
  end.

Fixpoint remove_nth {A : Type} (k : nat) (xs : list A) : list A :=
  match k, xs with
  | _, [] => []
  | O, _ :: t => t
  | S k', h :: t => h :: remove_nth k' t
  end.

(** One event.  An event whose control is not rendered in the current state
    (the upload target once an image is shown, the remove button and the
    text area before, a disabled generate button), or that names no pending
    operation, leaves the world as it is. *)
Definition step (w : World) (e : Event) : World :=
  let st := ui w in
  let shown := Js.truthy_opt (originalImage st) in
  match e with
  | FileChange f =>
      let '(st1, r) := handleFileChange f st in
      mkWorld st1 (reading w ++ opt_to_list r) (inflight w)
  | DragOver =>
      if shown then w else mkWorld (handleDragOver st) (reading w) (inflight w)
  | DragLeave =>
      if shown then w else mkWorld (handleDragLeave st) (reading w) (inflight w)
  | Drop f =>
      if shown then w
      else let '(st1, r) := handleDrop f st in
           mkWorld st1 (reading w ++ opt_to_list r) (inflight w)
  | RemoveImage =>
      if shown then mkWorld (removeImage st) (reading w) (inflight w) else w
  | ChoosePreset n =>
      match nth_error PRESET_STYLES n with
      | Some style => mkWorld (setSelectedStyle (id style) st) (reading w) (inflight w)
      | None => w
      end
  | ChooseCustom => mkWorld (setSelectedStyle "custom" st) (reading w) (inflight w)
  | EditCustom value =>
      if selectedStyle st =? "custom"
      then mkWorld (setCustomStyle value st) (reading w) (inflight w)
      else w
  | Generate =>
      if generate_disabled st then w
      else let '(st1, r) := handleGenerate_start st in
           mkWorld st1 (reading w) (inflight w ++ opt_to_list r)
  | ReaderLoad k result =>
      match nth_error (reading w) k with
      | Some file =>
          mkWorld (reader_onload file result st)
                  (remove_nth k (reading w)) (inflight w)
      | None => w
      end
  | Settle k o =>
      match nth_error (inflight w) k with
      | Some _ =>
          mkWorld (handleGenerate_resume o st)
                  (reading w) (remove_nth k (inflight w))
      | None => w
      end
  end.

Definition run (es : list Event) (w : World) : World := fold_left step es w.

(** The states the page can be in. *)
Definition reachable (st : State) : Prop :=
  exists es, ui (run es boot) = st.

(** * Vocabulary of the statements, and sample data *)

(** A string made of white space only: a sequence of the code points that
    [trim] removes, each in its UTF-8 encoding. *)
Inductive whitespace_only : string -> Prop :=
| wo_empty : whitespace_only ""
| wo_one a s :
    Js.ws1 a = true -> whitespace_only s -> whitespace_only (String a s)
| wo_two a b s :
    Js.ws2 a b = true -> whitespace_only s ->
    whitespace_only (String a (String b s))
| wo_three a b c s :
    Js.ws3 a b c = true -> whitespace_only s ->
    whitespace_only (String a (String b (String c s))).

(** Whether a character occurs in a string. *)
Fixpoint has_char (c : ascii) (s : string) : bool :=
  match s with
  | EmptyString => false
  | String a r => Ascii.eqb a c || has_char c r
  end.


(** The event that completes a file read. *)
Definition is_reader_load (e : Event) : bool :=
  match e with
  | ReaderLoad _ _ => true
  | _ => false
  end.

(** A file that passes the validation of [processFile]. *)
Definition image_file (f : File) : Prop :=
  Js.startsWith (type f) "image/" = true.

(** What every run maintains: only validated files are being read, and the
    stored media type is empty or an image type, the latter whenever an
    original is present. *)
Definition intake_invariant (w : World) : Prop :=
  Forall image_file (reading w)
  /\ (mimeType (ui w) = "" \/ Js.startsWith (mimeType (ui w)) "image/" = true)
  /\ (originalImage (ui w) <> None ->
      Js.startsWith (mimeType (ui w)) "image/" = true).

(** Sample data shared by the worked instances below. *)
Definition sample_png : File := mkFile "image/png" "PNG-bytes".
Definition sample_jpeg : File := mkFile "image/jpeg" "JPEG-bytes".
Definition sample_uri : string := "data:image/png;base64,AAAA".

Definition text_part (s : string) : Genai.Part := Genai.mkPart None (Some s).
Definition inline_part (d : string) (m : option string) : Genai.Part :=
  Genai.mkPart (Some (Genai.mkBlob (Some d) m)) None.

Definition sample_response : Genai.Response :=
  Genai.mkResponse
    (Some [Genai.mkCandidate
             (Genai.mkContent
                [text_part "Here is your image.";
                 inline_part "BBBB" None;
                 inline_part "CCCC" (Some "image/jpeg")])]).

(** A page with an original and a generated image, and one more read
    started. *)
Definition sample_world : World :=
  run [FileChange (Some sample_png);
       ReaderLoad 0 sample_uri;
       Generate;
       Settle 0 (Genai.Resolved sample_response);
       FileChange (Some sample_jpeg)] boot.



(** The picker delivers a PNG, its read completes, the user removes the
    image. *)
Definition load_then_remove : list Event :=
  [FileChange (Some sample_png); ReaderLoad 0 sample_uri; RemoveImage].

(** A string of decimal digits. *)
Fixpoint all_digits (s : string) : bool :=
  match s with
  | EmptyString => true
  | String a r =>
      ((48 <=? nat_of_ascii a) && (nat_of_ascii a <=? 57))%nat && all_digits r
  end.

(** The selection is one the page offers: the custom card or a catalog
    card. *)
Definition style_known (st : State) : Prop :=
  selectedStyle st = "custom" \/ In (selectedStyle st) (map id PRESET_STYLES).

(** The busy flag mirrors the requests in flight, of which there is at most
    one. *)
Definition flight_invariant (w : World) : Prop :=
  (isGenerating (ui w) = false /\ inflight w = [])
  \/ (isGenerating (ui w) = true /\ exists request, inflight w = [request]).

(** Upload a file, start a generation, remove the image, and only then let
    the request settle. *)
Definition remove_before_settle (file : File) (result : string)
  (o : Genai.Outcome) : list Event :=
  [FileChange (Some file); ReaderLoad 0 result; Generate; RemoveImage;
   Settle 0 o].

(** * Properties *)

(** ** Helper facts about the string primitives *)

Lemma truthy_false_iff (s : string) : Js.truthy s = false <-> s = "".
Proof.
  unfold Js.truthy. destruct (String.eqb_spec s ""); simpl; split; congruence.
Qed.

Lemma truthy_true_iff (s : string) : Js.truthy s = true <-> s <> "".
Proof.
  unfold Js.truthy. destruct (String.eqb_spec s ""); simpl; split; congruence.
Qed.

Lemma truthy_opt_false_iff (o : option string) :
  Js.truthy_opt o = false <-> o = None \/ o = Some "".
Proof.
  destruct o as [s|]; simpl.
  - rewrite truthy_false_iff. split.
    + intros ->. now right.
    + intros [H|H]; congruence.
  - split; auto.
Qed.

Lemma truthy_opt_true_iff (o : option string) :
  Js.truthy_opt o = true <-> exists s, o = Some s /\ s <> "".
Proof.
  destruct o as [s|]; simpl.
  - rewrite truthy_true_iff. split.
    + intros H. now exists s.
    + intros [s' [E H]]. congruence.
  - split; [discriminate | intros [s [E _]]; discriminate].
Qed.

Lemma prompt_missing_iff (p : option string) :
  prompt_missing p = true <-> p = None \/ exists s, p = Some s /\ Js.trim s = "".
Proof.
  destruct p as [s|]; simpl.
  - split.
    + intros H. right. exists s. split; [reflexivity|].
      apply orb_true_iff in H. destruct H as [H|H].
      * apply negb_true_iff, truthy_false_iff in H. subst. reflexivity.
      * now apply String.eqb_eq.
    + intros [H|[s' [E H]]]; [discriminate|].
      injection E as <-. apply orb_true_iff. right. now apply String.eqb_eq.
  - split; auto.
Qed.

(** ** White space and [trim] *)

Lemma ws2_not_ws1 a b : Js.ws2 a b = true -> Js.ws1 a = false.
Proof.
  unfold Js.ws2, Js.ws1. intros H. apply andb_true_iff in H.
  destruct H as [H _]. apply Nat.eqb_eq in H. rewrite H. reflexivity.
Qed.

Lemma ws3_lead a b c :
  Js.ws3 a b c = true ->
  nat_of_ascii a = 225 \/ nat_of_ascii a = 226 \/ nat_of_ascii a = 227
  \/ nat_of_ascii a = 239.
Proof.
  unfold Js.ws3. cbv zeta.
  rewrite !orb_true_iff, !andb_true_iff, !Nat.eqb_eq. tauto.
Qed.

Lemma ws3_not_ws1 a b c : Js.ws3 a b c = true -> Js.ws1 a = false.
Proof.
  intros H. apply ws3_lead in H. unfold Js.ws1.
  destruct H as [H|[H|[H|H]]]; rewrite H; reflexivity.
Qed.

Lemma ws3_not_ws2 a b c : Js.ws3 a b c = true -> Js.ws2 a b = false.
Proof.
  intros H. apply ws3_lead in H. unfold Js.ws2.
  destruct H as [H|[H|[H|H]]]; rewrite H; reflexivity.
Qed.

Lemma trimStart_whitespace_only s : whitespace_only s -> Js.trimStart s = "".
Proof.
  induction 1 as [|a s Ha _ IH|a b s Hab _ IH|a b c s Habc _ IH].
  - reflexivity.
  - simpl. now rewrite Ha.
  - simpl. now rewrite (ws2_not_ws1 a b Hab), Hab.
  - simpl. now rewrite (ws3_not_ws1 a b c Habc), (ws3_not_ws2 a b c Habc), Habc.
Qed.

Lemma trimStart_spec_bounded n : forall s, String.length s <= n ->
  (Js.trimStart s = "" -> whitespace_only s)
  /\ Js.trimStart (Js.trimStart s) = Js.trimStart s.
Proof.
  induction n as [|n IH]; intros s Hlen.
  - destruct s; simpl in Hlen; [|lia]. split; [constructor | reflexivity].
  - destruct s as [|a s1]; [split; [constructor | reflexivity]|].
    simpl in Hlen.
    destruct (IH s1 ltac:(lia)) as [IH1 IH1'].
    simpl. destruct (Js.ws1 a) eqn:Ha.
    { split; [intros H; apply wo_one; auto | exact IH1']. }
    destruct s1 as [|b s2].
    { split; [discriminate | simpl; now rewrite Ha]. }
    simpl in Hlen.
    destruct (IH s2 ltac:(lia)) as [IH2 IH2'].
    destruct (Js.ws2 a b) eqn:Hab.
    { split; [intros H; apply wo_two; auto | exact IH2']. }
    destruct s2 as [|c s3].
    { split; [discriminate | simpl; now rewrite Ha, Hab]. }
    simpl in Hlen.
    destruct (IH s3 ltac:(lia)) as [IH3 IH3'].
    destruct (Js.ws3 a b c) eqn:Habc.
    { split; [intros H; apply wo_three; auto | exact IH3']. }
    split; [discriminate | simpl; now rewrite Ha, Hab, Habc].
Qed.

Lemma trimStart_empty_iff s : Js.trimStart s = "" <-> whitespace_only s.
Proof.
  split.
  - apply (trimStart_spec_bounded (String.length s) s (le_n _)).
  - apply trimStart_whitespace_only.
Qed.

Lemma trimStart_idempotent s : Js.trimStart (Js.trimStart s) = Js.trimStart s.
Proof. apply (trimStart_spec_bounded (String.length s) s (le_n _)). Qed.

Lemma whitespace_only_app s t :
  whitespace_only s -> whitespace_only t -> whitespace_only (s ++ t).
Proof.
  intros Hs Ht.
  induction Hs as [|a s Ha _ IH|a b s Hab _ IH|a b c s Habc _ IH]; simpl.
  - exact Ht.
  - now apply wo_one.
  - now apply wo_two.
  - now apply wo_three.
Qed.

Lemma append_assoc (s t u : string) : (s ++ t) ++ u = s ++ (t ++ u).
Proof. induction s as [|a s IH]; simpl; [reflexivity | now rewrite IH]. Qed.

Lemma append_empty_r (s : string) : s ++ "" = s.
Proof. induction s as [|a s IH]; simpl; [reflexivity | now rewrite IH]. Qed.

Lemma length_append (s t : string) :
  String.length (s ++ t) = String.length s + String.length t.
Proof. induction s as [|a s IH]; simpl; [reflexivity | now rewrite IH]. Qed.

Lemma rev_onto_app s acc : Js.rev_onto s acc = Js.rev s ++ acc.
Proof.
  unfold Js.rev. revert acc. induction s as [|a s IH]; intros acc; simpl.
  - reflexivity.
  - rewrite (IH (String a acc)), (IH (String a "")).
    rewrite append_assoc. reflexivity.
Qed.

Lemma rev_cons a s : Js.rev (String a s) = Js.rev s ++ String a "".
Proof. unfold Js.rev at 1. simpl. apply rev_onto_app. Qed.

Lemma rev_length s : String.length (Js.rev s) = String.length s.
Proof.
  induction s as [|a s IH]; [reflexivity|].
  rewrite rev_cons, length_append, IH. simpl. lia.
Qed.

Lemma rev_empty s : Js.rev s = "" -> s = "".
Proof.
  intros H. pose proof (rev_length s) as L. rewrite H in L.
  destruct s; [reflexivity | discriminate].
Qed.

Lemma trimStart_rev_bounded n : forall u, String.length u <= n ->
  Js.trimStart_rev u = "" -> whitespace_only (Js.rev u).
Proof.
  induction n as [|n IH]; intros u Hlen.
  - destruct u; simpl in Hlen; [|lia]. intros _. constructor.
  - destruct u as [|a u1]; [intros _; constructor|].
    simpl in Hlen. simpl. destruct (Js.ws1 a) eqn:Ha.
    { intros H. rewrite rev_cons. apply whitespace_only_app.
      - apply IH; [lia | exact H].
      - apply wo_one; [exact Ha | constructor]. }
    destruct u1 as [|b u2]; [discriminate|].
    simpl in Hlen. destruct (Js.ws2 b a) eqn:Hba.
    { intros H. rewrite !rev_cons, append_assoc.
      apply whitespace_only_app.
      - apply IH; [lia | exact H].
      - simpl. apply wo_two; [exact Hba | constructor]. }
    destruct u2 as [|c u3]; [discriminate|].
    simpl in Hlen. destruct (Js.ws3 c b a) eqn:Hcba; [|discriminate].
    intros H. rewrite !rev_cons, !append_assoc.
    apply whitespace_only_app.
    + apply IH; [lia | exact H].
    + simpl. apply wo_three; [exact Hcba | constructor].
Qed.

Lemma rev_involutive s : Js.rev (Js.rev s) = s.
Proof.
  induction s as [|a s IH]; [reflexivity|].
  rewrite rev_cons.
  assert (H : forall x y, Js.rev (x ++ y) = Js.rev y ++ Js.rev x).
  { induction x as [|c x IHx]; intros y; simpl.
    - now rewrite append_empty_r.
    - rewrite !rev_cons, IHx, append_assoc. reflexivity. }
  rewrite H, IH. reflexivity.
Qed.

Lemma trim_empty_iff s : Js.trim s = "" <-> whitespace_only s.
Proof.
  unfold Js.trim, Js.trimEnd. split.
  - intros H. apply rev_empty in H.
    apply (trimStart_rev_bounded _ _ (le_n _)) in H.
    rewrite rev_involutive in H.
    apply trimStart_whitespace_only in H.
    rewrite trimStart_idempotent in H.
    now apply trimStart_empty_iff.
  - intros H. apply trimStart_empty_iff in H. rewrite H. reflexivity.
Qed.

(** ** Image intake *)

(** C8.  A file whose declared media type does not begin with "image/" only
    sets the error message: [processFile] returns the state with [error]
    replaced by the invalid-type message and starts no read, so
    [originalImage], [mimeType], [generatedImage], [selectedStyle],
    [customStyle] and [isGenerating] (and [isDragging]) are as before. *)
Theorem processFile_rejects_non_image (file : File) (st : State) :
  Js.startsWith (type file) "image/" = false ->
  let st' := fst (processFile file st) in
  processFile file st
    = (setError (Some "請上傳圖片檔案 (JPEG, PNG 等)") st, None)
  /\ error st' = Some "請上傳圖片檔案 (JPEG, PNG 等)"
  /\ originalImage st' = originalImage st
  /\ mimeType st' = mimeType st
  /\ generatedImage st' = generatedImage st
  /\ selectedStyle st' = selectedStyle st
  /\ customStyle st' = customStyle st
  /\ isGenerating st' = isGenerating st
  /\ isDragging st' = isDragging st.
Proof.
  intros H. unfold processFile. rewrite H. simpl. repeat split.
Qed.

Lemma processFile_rejects_non_image_witness :
  let file := mkFile "text/plain" "hello" in
  let st := setGeneratedImage (Some "data:image/png;base64,QUJD")
              (setOriginalImage (Some "data:image/png;base64,AAAA") initial) in
  processFile file st
    = (setError (Some "請上傳圖片檔案 (JPEG, PNG 等)") st, None)
  /\ originalImage (fst (processFile file st))
     = Some "data:image/png;base64,AAAA".
Proof.
  intros file st.
  destruct (processFile_rejects_non_image file st eq_refl)
    as [H [_ [H0 _]]].
  split; [exact H | exact H0].
Defined.

(** C6.  Completing a file read (whichever of picker or drop started it, and
    whatever happened in between) stores the new original and leaves no
    generated image; so does Remove Image.  The same holds of the
    corresponding events of the running page. *)
Theorem load_and_remove_clear_generated :
  (forall file result st,
      originalImage (reader_onload file result st) = Some result
      /\ generatedImage (reader_onload file result st) = None)
  /\ (forall st,
      originalImage (removeImage st) = None
      /\ generatedImage (removeImage st) = None)
  /\ (forall w k result file,
      nth_error (reading w) k = Some file ->
      originalImage (ui (step w (ReaderLoad k result))) = Some result
      /\ generatedImage (ui (step w (ReaderLoad k result))) = None)
  /\ (forall w,
      Js.truthy_opt (originalImage (ui w)) = true ->
      originalImage (ui (step w RemoveImage)) = None
      /\ generatedImage (ui (step w RemoveImage)) = None).
Proof.
  repeat split.
  - simpl. now rewrite H.
  - simpl. now rewrite H.
  - simpl. now rewrite H.
  - simpl. now rewrite H.
Qed.

Lemma load_and_remove_clear_generated_witness :
  generatedImage (ui sample_world) = Some "data:image/png;base64,BBBB"
  /\ generatedImage
       (ui (step sample_world (ReaderLoad 0 "data:image/jpeg;base64,DDDD")))
     = None
  /\ generatedImage (ui (step sample_world RemoveImage)) = None.
Proof.
  destruct load_and_remove_clear_generated as [_ [_ [Hload Hremove]]].
  split; [reflexivity|]. split.
  - apply (Hload sample_world 0 "data:image/jpeg;base64,DDDD" sample_jpeg).
    reflexivity.
  - apply (Hremove sample_world). reflexivity.
Defined.

(** ** The generate button *)

(** C7.  The button is disabled exactly when no image is loaded, or a
    generation is in flight, or the custom style is selected with empty or
    whitespace-only text.  The source tests the image with [!originalImage],
    which holds of [null] and of the empty string; a data-URI is never
    empty, and for such states the test is [originalImage = None].  With an
    image loaded and nothing in flight, any selection other than "custom",
    or non-blank custom text, leaves the button enabled.  The text is blank
    ([trim] returns the empty string) exactly when it consists of white
    space only. *)
Theorem generate_disabled_iff (st : State) :
  (generate_disabled st = true <->
     Js.truthy_opt (originalImage st) = false
     \/ isGenerating st = true
     \/ (selectedStyle st = "custom" /\ Js.trim (customStyle st) = ""))
  /\ (originalImage st <> Some "" ->
      (generate_disabled st = true <->
         originalImage st = None
         \/ isGenerating st = true
         \/ (selectedStyle st = "custom" /\ Js.trim (customStyle st) = "")))
  /\ (forall img, originalImage st = Some img -> img <> "" ->
      isGenerating st = false ->
      selectedStyle st <> "custom" \/ Js.trim (customStyle st) <> "" ->
      generate_disabled st = false)
  /\ (Js.trim (customStyle st) = "" <-> whitespace_only (customStyle st)).
Proof.
  assert (Hiff : generate_disabled st = true <->
     Js.truthy_opt (originalImage st) = false
     \/ isGenerating st = true
     \/ (selectedStyle st = "custom" /\ Js.trim (customStyle st) = "")).
  { unfold generate_disabled.
    rewrite !orb_true_iff, andb_true_iff, !negb_true_iff.
    rewrite String.eqb_eq, truthy_false_iff. tauto. }
  split; [exact Hiff|]. split; [|split; [|apply trim_empty_iff]].
  - intros Hne. rewrite Hiff, truthy_opt_false_iff. tauto.
  - intros img Himg Hne Hgen Hsel.
    apply not_true_is_false. intros E.
    apply Hiff in E. destruct E as [E|[E|[E1 E2]]].
    + apply truthy_opt_false_iff in E. destruct E; congruence.
    + congruence.
    + destruct Hsel; contradiction.
Qed.

Lemma generate_disabled_iff_witness :
  let loaded := setOriginalImage (Some sample_uri) initial in
  generate_disabled initial = true
  /\ generate_disabled loaded = false
  /\ generate_disabled (setSelectedStyle "custom" loaded) = true
  /\ generate_disabled
       (setCustomStyle "   " (setSelectedStyle "custom" loaded)) = true
  /\ generate_disabled
       (setCustomStyle " oil painting " (setSelectedStyle "custom" loaded))
     = false
  /\ generate_disabled (setIsGenerating true loaded) = true.
Proof.
  intros loaded.
  split.
  { apply (proj1 (generate_disabled_iff initial)). left. reflexivity. }
  split.
  { apply (proj1 (proj2 (proj2 (generate_disabled_iff loaded))) sample_uri);
      [reflexivity | discriminate | reflexivity | left; discriminate]. }
  split.
  { apply (proj1 (proj2 (generate_disabled_iff
                           (setSelectedStyle "custom" loaded))));
      [discriminate | right; right; split; reflexivity]. }
  split.
  { apply (proj1 (generate_disabled_iff
                    (setCustomStyle "   " (setSelectedStyle "custom" loaded)))).
    right; right; split; reflexivity. }
  split.
  { apply (proj1 (proj2 (proj2 (generate_disabled_iff
                           (setCustomStyle " oil painting "
                              (setSelectedStyle "custom" loaded))))) sample_uri);
      [reflexivity | discriminate | reflexivity | right; discriminate]. }
  apply (proj1 (generate_disabled_iff (setIsGenerating true loaded))).
  right; left; reflexivity.
Defined.

(** ** The guards of the generation handler *)


Lemma start_with_image (st : State) (img : string) :
  originalImage st = Some img -> img <> "" ->
  handleGenerate_start st =
    if prompt_missing (promptText st)
    then (setError (Some MSG_NO_STYLE) st, None)
    else (setError None (setIsGenerating true st),
          Some (build_request img (mimeType st) (interpolate (promptText st)))).
Proof.
  intros E Hne. unfold handleGenerate_start. rewrite E.
  apply truthy_true_iff in Hne. rewrite Hne. reflexivity.
Qed.





(** ** Prompt resolution *)


Lemma catalog_id_not_custom (sel : string) :
  In sel (map id PRESET_STYLES) -> sel <> "custom".
Proof.
  simpl. intros [<-|[<-|[<-|[<-|[<-|[]]]]]]; discriminate.
Qed.

Lemma promptText_preset (st : State) (c : string) :
  selectedStyle st <> "custom" ->
  promptText (setCustomStyle c st) = promptText st.
Proof.
  intros H. unfold promptText. simpl.
  apply String.eqb_neq in H. now rewrite H.
Qed.

Lemma start_preset_custom_text (st : State) (c : string) :
  selectedStyle st <> "custom" ->
  handleGenerate_start (setCustomStyle c st)
  = (setCustomStyle c (fst (handleGenerate_start st)),
     snd (handleGenerate_start st)).
Proof.
  intros H. unfold handleGenerate_start.
  rewrite (promptText_preset st c H). simpl.
  destruct (originalImage st) as [img|]; [|reflexivity].
  destruct (negb (Js.truthy img)); [reflexivity|].
  destruct (prompt_missing (promptText st)); reflexivity.
Qed.

(** C9.  With a catalog id selected, two states that differ only in
    [customStyle] make the handler take the same branch: it issues the very
    same request or none in both, sets the same error and busy flag, and the
    resulting states again differ only in [customStyle]. *)
Theorem preset_request_ignores_custom_text (st : State) (c1 c2 : string) :
  In (selectedStyle st) (map id PRESET_STYLES) ->
  let r1 := handleGenerate_start (setCustomStyle c1 st) in
  let r2 := handleGenerate_start (setCustomStyle c2 st) in
  snd r1 = snd r2
  /\ fst r2 = setCustomStyle c2 (fst r1)
  /\ error (fst r1) = error (fst r2)
  /\ isGenerating (fst r1) = isGenerating (fst r2).
Proof.
  intros Hin. apply catalog_id_not_custom in Hin. simpl.
  rewrite !start_preset_custom_text by assumption. simpl.
  repeat split.
Qed.

Lemma preset_request_ignores_custom_text_witness :
  let st := setSelectedStyle "sketch" (setOriginalImage (Some sample_uri) initial) in
  snd (handleGenerate_start (setCustomStyle "" st))
  = snd (handleGenerate_start (setCustomStyle "ignore the image" st))
  /\ snd (handleGenerate_start (setCustomStyle "" st))
     = Some (build_request sample_uri ""
               "Pencil sketch style, detailed, black and white, hand-drawn").
Proof.
  intros st. split.
  - apply (preset_request_ignores_custom_text st "" "ignore the image").
    simpl. tauto.
  - reflexivity.
Defined.




(** ** The request *)

Lemma split_no_sep (c : ascii) (s : string) :
  has_char c s = false -> Js.split c s = [s].
Proof.
  induction s as [|a r IH]; simpl; [reflexivity|].
  intros H. apply orb_false_iff in H. destruct H as [Ha Hr].
  rewrite Ha, (IH Hr). reflexivity.
Qed.

Lemma split_first_sep (c : ascii) (pre post : string) :
  has_char c pre = false ->
  Js.split c (pre ++ String c post) = pre :: Js.split c post.
Proof.
  induction pre as [|a r IH]; simpl.
  - intros _. now rewrite Ascii.eqb_refl.
  - intros H. apply orb_false_iff in H. destruct H as [Ha Hr].
    rewrite Ha, (IH Hr). reflexivity.
Qed.

Lemma base64Data_after_comma (pre payload : string) :
  has_char "," pre = false -> has_char "," payload = false ->
  base64Data (pre ++ "," ++ payload) = Some payload.
Proof.
  intros Hpre Hpay. unfold base64Data, Js.index. simpl.
  rewrite (split_first_sep "," pre payload Hpre).
  rewrite (split_no_sep "," payload Hpay). reflexivity.
Qed.

Lemma catalog_ids_unique : NoDup (map id PRESET_STYLES).
Proof.
  simpl.
  repeat (constructor;
          [simpl; intros H;
           repeat (destruct H as [H|H]; [discriminate|]); exact H|]).
  constructor.
Qed.

Lemma find_by_id_some (sel : string) (e : StylePreset) :
  find (fun s => id s =? sel) PRESET_STYLES = Some e ->
  In e PRESET_STYLES /\ id e = sel
  /\ forall e', In e' PRESET_STYLES -> id e' = sel -> prompt e' = prompt e.
Proof.
  intros H. pose proof (find_some _ _ H) as [Hin Heq].
  apply String.eqb_eq in Heq. repeat split; try assumption.
  intros e' Hin' Heq'. revert H. subst sel.
  simpl in Hin'.
  destruct Hin' as [<-|[<-|[<-|[<-|[<-|[]]]]]];
    simpl in Hin; destruct Hin as [<-|[<-|[<-|[<-|[<-|[]]]]]];
    simpl in Heq'; try discriminate; reflexivity.
Qed.

(** C2.  Whenever the handler gets past its guards it hands the client one
    request, for model "gemini-2.5-flash-image", whose content has exactly
    two parts: the inline image data ([originalImage.split(',')[1]] paired
    with [mimeType]) and then the instruction text built around the resolved
    prompt, which is [customStyle] verbatim for "custom" and otherwise the
    prompt of the (unique) catalog entry with the selected id.  For an
    original of the form prefix-comma-payload with no other comma, as every
    base64 data-URI is, the image data is the payload after the comma.  On
    the running page the click adds exactly this one request to those in
    flight. *)
Theorem handleGenerate_request (st st1 : State) (request : Genai.Request) :
  handleGenerate_start st = (st1, Some request) ->
  exists img p,
    originalImage st = Some img
    /\ ((selectedStyle st = "custom" /\ p = customStyle st)
        \/ (selectedStyle st <> "custom"
            /\ exists e, In e PRESET_STYLES /\ id e = selectedStyle st
                         /\ p = prompt e
                         /\ forall e', In e' PRESET_STYLES ->
                                       id e' = selectedStyle st ->
                                       prompt e' = p))
    /\ request =
       Genai.mkRequest "gemini-2.5-flash-image"
         (Genai.mkContent
            [ Genai.mkPart
                (Some (Genai.mkBlob (base64Data img) (Some (mimeType st))))
                None;
              Genai.mkPart None
                (Some ("Convert this image to the following style: " ++ p
                       ++ ". Keep the main subject and composition the same.")) ])
    /\ (forall pre payload,
          img = pre ++ "," ++ payload ->
          has_char "," pre = false -> has_char "," payload = false ->
          base64Data img = Some payload)
    /\ st1 = setError None (setIsGenerating true st)
    /\ (forall w, ui w = st -> generate_disabled st = false ->
        inflight (step w Generate) = (inflight w ++ [request])%list).
Proof.
  intros Hstart.
  assert (Hstep : forall w, ui w = st -> generate_disabled st = false ->
            inflight (step w Generate) = (inflight w ++ [request])%list).
  { intros w <- Hen. simpl. rewrite Hen, Hstart. reflexivity. }
  revert Hstart Hstep. unfold handleGenerate_start.
  destruct (originalImage st) as [img|] eqn:Eimg; [|discriminate].
  destruct (negb (Js.truthy img)); [discriminate|].
  destruct (prompt_missing (promptText st)) eqn:Emiss; [discriminate|].
  intros [= <- <-] Hstep.
  destruct (promptText st) as [p|] eqn:Ep; [|discriminate].
  exists img, p. split; [reflexivity|].
  split; [|split; [reflexivity|split; [|split; [reflexivity | exact Hstep]]]].
  - unfold promptText in Ep.
    destruct (String.eqb_spec (selectedStyle st) "custom") as [Hc|Hc].
    + left. split; [assumption | congruence].
    + right. split; [assumption|].
      destruct (find _ PRESET_STYLES) as [e|] eqn:Ef; [|discriminate].
      injection Ep as <-.
      destruct (find_by_id_some _ _ Ef) as [Hin [Hid Huniq]].
      exists e. repeat split; assumption.
  - intros pre payload -> Hpre Hpay. now apply base64Data_after_comma.
Qed.

Lemma handleGenerate_request_witness :
  let st := ui (run [FileChange (Some sample_png);
                     ReaderLoad 0 sample_uri;
                     ChoosePreset 3] boot) in
  let request :=
    Genai.mkRequest "gemini-2.5-flash-image"
      (Genai.mkContent
         [ Genai.mkPart (Some (Genai.mkBlob (Some "AAAA") (Some "image/png"))) None;
           Genai.mkPart None
             (Some "Convert this image to the following style: Pencil sketch style, detailed, black and white, hand-drawn. Keep the main subject and composition the same.") ]) in
  handleGenerate_start st = (setError None (setIsGenerating true st), Some request)
  /\ exists img, originalImage st = Some img /\ base64Data img = Some "AAAA".
Proof.
  intros st request.
  assert (E : handleGenerate_start st
              = (setError None (setIsGenerating true st), Some request))
    by reflexivity.
  split; [exact E|].
  destruct (handleGenerate_request _ _ _ E)
    as [img [p [Himg [_ [_ [Hpay _]]]]]].
  exists img. split; [exact Himg|].
  apply (Hpay "data:image/png;base64" "AAAA"); [|reflexivity|reflexivity].
  vm_compute in Himg. now injection Himg as <-.
Defined.

(** ** Reading the response *)

Lemma scan_parts_skip (before rest : list Genai.Part) (st : State) :
  Forall (fun part => Genai.inlineData part = None) before ->
  scan_parts (before ++ rest) st = scan_parts rest st.
Proof.
  induction 1 as [|part before Hpart _ IH]; simpl; [reflexivity|].
  now rewrite Hpart.
Qed.


Lemma scan_parts_generated (ps : list Genai.Part) (st st1 : State) :
  scan_parts ps st = (st1, false) -> st1 = st.
Proof.
  induction ps as [|part rest IH]; simpl.
  - now intros [= <-].
  - destruct (Genai.inlineData part); [discriminate | exact IH].
Qed.

(** C1.  When the response has a candidate, the first part of the first
    candidate that carries inline data decides the result: [generatedImage]
    becomes "data:" + media type + ";base64," + payload, where the media
    type is the part's own or "image/png" when it has none (or an empty
    one); nothing else changes but the busy flag, and whatever parts follow
    (and whatever further candidates there are) the outcome is the same. *)
Theorem first_inline_part_decides
  (st : State) (before after : list Genai.Part) (part : Genai.Part)
  (payload : string) (media : option string) (more : list Genai.Candidate) :
  Forall (fun p => Genai.inlineData p = None) before ->
  Genai.inlineData part = Some (Genai.mkBlob (Some payload) media) ->
  let response tail :=
    Genai.mkResponse
      (Some (Genai.mkCandidate (Genai.mkContent (before ++ part :: tail))
             :: more)) in
  let st' := handleGenerate_resume (Genai.Resolved (response after)) st in
  st' = setIsGenerating false
          (setGeneratedImage
             (Some ("data:" ++ Js.or_else media "image/png"
                    ++ ";base64," ++ payload)) st)
  /\ (media = None \/ media = Some "" ->
      generatedImage st' = Some ("data:image/png;base64," ++ payload))
  /\ (forall m, media = Some m -> m <> "" ->
      generatedImage st' = Some ("data:" ++ m ++ ";base64," ++ payload))
  /\ (forall tail more',
      handleGenerate_resume
        (Genai.Resolved
           (Genai.mkResponse
              (Some (Genai.mkCandidate (Genai.mkContent (before ++ part :: tail))
                     :: more')))) st = st').
Proof.
  intros Hbefore Hpart response st'.
  assert (Hscan : forall tail,
    scan_parts (before ++ part :: tail) st
    = (setGeneratedImage
         (Some ("data:" ++ Js.or_else media "image/png"
                ++ ";base64," ++ payload)) st, true)).
  { intros tail. rewrite (scan_parts_skip before _ st Hbefore). simpl.
    rewrite Hpart. reflexivity. }
  assert (Hres : forall tail more',
    handleGenerate_resume
      (Genai.Resolved
         (Genai.mkResponse
            (Some (Genai.mkCandidate (Genai.mkContent (before ++ part :: tail))
                   :: more')))) st
    = setIsGenerating false
        (setGeneratedImage
           (Some ("data:" ++ Js.or_else media "image/png"
                  ++ ";base64," ++ payload)) st)).
  { intros tail more'. unfold handleGenerate_resume, try_block. simpl.
    rewrite Hscan. reflexivity. }
  assert (E : st' = setIsGenerating false
        (setGeneratedImage
           (Some ("data:" ++ Js.or_else media "image/png"
                  ++ ";base64," ++ payload)) st))
    by apply Hres.
  split; [exact E|]. split; [|split].
  - intros [-> | ->]; rewrite E; reflexivity.
  - intros m -> Hm. rewrite E. simpl.
    apply truthy_true_iff in Hm. now rewrite Hm.
  - intros tail more'. rewrite E. apply Hres.
Qed.

Lemma first_inline_part_decides_witness :
  generatedImage
    (handleGenerate_resume (Genai.Resolved sample_response)
       (setIsGenerating true (setOriginalImage (Some sample_uri) initial)))
  = Some "data:image/png;base64,BBBB".
Proof.
  apply (first_inline_part_decides
           (setIsGenerating true (setOriginalImage (Some sample_uri) initial))
           [text_part "Here is your image."]
           [inline_part "CCCC" (Some "image/jpeg")]
           (inline_part "BBBB" None) "BBBB" None []).
  - repeat constructor.
  - reflexivity.
  - left. reflexivity.
Defined.

(** ** Failures *)






(** ** The media type over the life of the page *)

Lemma processFile_fields (file : File) (st : State) :
  let '(st1, r) := processFile file st in
  originalImage st1 = originalImage st
  /\ mimeType st1 = mimeType st
  /\ match r with Some f => image_file f | None => True end.
Proof.
  unfold processFile, image_file.
  destruct (Js.startsWith (type file) "image/") eqn:E; simpl; auto.
Qed.

Lemma start_fields (st : State) :
  originalImage (fst (handleGenerate_start st)) = originalImage st
  /\ mimeType (fst (handleGenerate_start st)) = mimeType st.
Proof.
  unfold handleGenerate_start.
  destruct (originalImage st) as [img|] eqn:E; simpl; [|now rewrite E].
  destruct (negb (Js.truthy img)); simpl; [now rewrite E|].
  destruct (prompt_missing (promptText st)); simpl; now rewrite E.
Qed.

Lemma scan_parts_fields (ps : list Genai.Part) (st : State) :
  originalImage (fst (scan_parts ps st)) = originalImage st
  /\ mimeType (fst (scan_parts ps st)) = mimeType st.
Proof.
  induction ps as [|part rest IH]; simpl; [auto|].
  destruct (Genai.inlineData part); simpl; auto.
Qed.

Lemma resume_fields (o : Genai.Outcome) (st : State) :
  originalImage (handleGenerate_resume o st) = originalImage st
  /\ mimeType (handleGenerate_resume o st) = mimeType st.
Proof.
  unfold handleGenerate_resume, try_block.
  destruct o as [response|err]; simpl; [|auto].
  destruct (Genai.candidates response) as [[|c cs]|]; simpl; auto.
  pose proof (scan_parts_fields (Genai.parts (Genai.content c)) st) as H.
  destruct (scan_parts (Genai.parts (Genai.content c)) st) as [st1 [|]];
    simpl in *; exact H.
Qed.

Lemma remove_nth_Forall {A : Type} (P : A -> Prop) (k : nat) (xs : list A) :
  Forall P xs -> Forall P (remove_nth k xs).
Proof.
  intros H. revert k. induction H as [|x xs Hx Hxs IH]; intros [|k]; simpl.
  - constructor.
  - constructor.
  - exact Hxs.
  - constructor; [exact Hx | apply IH].
Qed.

(** Events other than a completed read leave the original's presence and the
    media type coupled as they were: they change neither, except that
    Remove Image clears the original. *)
Lemma step_keeps_mimeType (w : World) (e : Event) :
  is_reader_load e = false ->
  mimeType (ui (step w e)) = mimeType (ui w).
Proof.
  destruct w as [st rd fl]. destruct e; simpl; try discriminate; intros _.
  - destruct files0 as [file|]; simpl; [|reflexivity].
    pose proof (processFile_fields file st) as H.
    destruct (processFile file st) as [st1 r]. simpl. tauto.
  - destruct (Js.truthy_opt (originalImage st)); reflexivity.
  - destruct (Js.truthy_opt (originalImage st)); reflexivity.
  - destruct (Js.truthy_opt (originalImage st)); [reflexivity|].
    unfold handleDrop. destruct files0 as [file|]; simpl; [|reflexivity].
    pose proof (processFile_fields file (setIsDragging false st)) as H.
    destruct (processFile file (setIsDragging false st)) as [st1 r].
    simpl. tauto.
  - destruct (Js.truthy_opt (originalImage st)); reflexivity.
  - destruct (nth_error PRESET_STYLES n); reflexivity.
  - reflexivity.
  - destruct (selectedStyle st =? "custom"); reflexivity.
  - destruct (generate_disabled st); [reflexivity|].
    pose proof (start_fields st) as H.
    destruct (handleGenerate_start st) as [st1 r]. simpl in *. tauto.
  - destruct (nth_error fl k); [|reflexivity]. simpl.
    apply resume_fields.
Qed.

Lemma step_invariant (w : World) (e : Event) :
  intake_invariant w -> intake_invariant (step w e).
Proof.
  destruct w as [st rd fl]. unfold intake_invariant. simpl.
  intros [Hrd [Hmime Himg]].
  destruct e; simpl.
  - destruct files0 as [file|]; simpl; [|rewrite app_nil_r; auto].
    pose proof (processFile_fields file st) as H.
    destruct (processFile file st) as [st1 r]. simpl.
    destruct H as [Ho [Hm Hr]]. rewrite Ho, Hm.
    split; [|auto]. apply Forall_app. split; [assumption|].
    destruct r; simpl; auto.
  - destruct (Js.truthy_opt (originalImage st)); simpl; auto.
  - destruct (Js.truthy_opt (originalImage st)); simpl; auto.
  - destruct (Js.truthy_opt (originalImage st)); simpl; [auto|].
    unfold handleDrop. destruct files0 as [file|]; simpl;
      [|rewrite app_nil_r; auto].
    pose proof (processFile_fields file (setIsDragging false st)) as H.
    destruct (processFile file (setIsDragging false st)) as [st1 r]. simpl.
    destruct H as [Ho [Hm Hr]]. rewrite Ho, Hm. simpl.
    split; [|auto]. apply Forall_app. split; [assumption|].
    destruct r; simpl; auto.
  - destruct (Js.truthy_opt (originalImage st)); simpl; [|auto].
    split; [assumption|]. split; [assumption|]. congruence.
  - destruct (nth_error PRESET_STYLES n); simpl; auto.
  - auto.
  - destruct (selectedStyle st =? "custom"); simpl; auto.
  - destruct (generate_disabled st); simpl; [auto|].
    pose proof (start_fields st) as H.
    destruct (handleGenerate_start st) as [st1 r]. simpl in *.
    destruct H as [Ho Hm]. rewrite Ho, Hm. auto.
  - destruct (nth_error rd k) as [file|] eqn:E; simpl; [|auto].
    assert (Hfile : image_file file).
    { apply nth_error_In in E. rewrite Forall_forall in Hrd. now apply Hrd. }
    split; [now apply remove_nth_Forall|]. split; [now right | auto].
  - destruct (nth_error fl k); simpl; [|auto].
    destruct (resume_fields o st) as [Ho Hm]. rewrite Ho, Hm. auto.
Qed.

Lemma run_invariant (es : list Event) (w : World) :
  intake_invariant w -> intake_invariant (run es w).
Proof.
  revert w. induction es as [|e es IH]; simpl; intros w H; [assumption|].
  apply IH. now apply step_invariant.
Qed.

Lemma run_keeps_mimeType (es : list Event) (w : World) :
  forallb (fun e => negb (is_reader_load e)) es = true ->
  mimeType (ui (run es w)) = mimeType (ui w).
Proof.
  revert w. induction es as [|e es IH]; simpl; intros w H; [reflexivity|].
  apply andb_true_iff in H. destruct H as [He Hes].
  rewrite (IH _ Hes). apply step_keeps_mimeType.
  now apply negb_true_iff.
Qed.

Lemma boot_invariant : intake_invariant boot.
Proof.
  unfold intake_invariant. simpl. split; [constructor|].
  split; [now left | congruence].
Qed.

(** C5, as stated, fails: after Remove Image no original is loaded, yet
    [mimeType] still holds the removed file's media type. *)
Lemma mimeType_counterexample :
  reachable (ui (run load_then_remove boot))
  /\ originalImage (ui (run load_then_remove boot)) = None
  /\ mimeType (ui (run load_then_remove boot)) = "image/png"
  /\ mimeType (ui (run load_then_remove boot)) <> "".
Proof.
  split; [now exists load_then_remove|].
  split; [reflexivity|]. split; [reflexivity | discriminate].
Qed.

(** C5, amended.  [mimeType] is the empty string until the first file read
    completes; in every reachable state it is empty or an image media type,
    and it is an image media type whenever an original is loaded.  Remove
    Image clears [originalImage] and leaves [mimeType] as it was. *)
Theorem mimeType_lifecycle (es : list Event) :
  let w := run es boot in
  (forallb (fun e => negb (is_reader_load e)) es = true ->
   mimeType (ui w) = "")
  /\ (mimeType (ui w) = "" \/ Js.startsWith (mimeType (ui w)) "image/" = true)
  /\ (originalImage (ui w) <> None ->
      Js.startsWith (mimeType (ui w)) "image/" = true)
  /\ originalImage (removeImage (ui w)) = None
  /\ mimeType (removeImage (ui w)) = mimeType (ui w)
  /\ mimeType (ui (step w RemoveImage)) = mimeType (ui w).
Proof.
  intros w. pose proof (run_invariant es boot boot_invariant) as [_ [Hm Hi]].
  split; [intros H; apply (run_keeps_mimeType es boot H)|].
  split; [exact Hm|]. split; [exact Hi|].
  split; [reflexivity|]. split; [reflexivity|].
  now apply step_keeps_mimeType.
Qed.

Lemma mimeType_lifecycle_witness :
  mimeType (ui (run [DragOver; Drop (Some (mkFile "text/plain" "hello"));
                     ChooseCustom; EditCustom "pixel art"; Generate] boot)) = ""
  /\ Js.startsWith (mimeType (ui (run load_then_remove boot))) "image/" = true.
Proof.
  split.
  - exact (proj1 (mimeType_lifecycle
                    [DragOver; Drop (Some (mkFile "text/plain" "hello"));
                     ChooseCustom; EditCustom "pixel art"; Generate])
             eq_refl).
  - destruct (mimeType_lifecycle load_then_remove) as [_ [[H|H] _]].
    + discriminate H.
    + exact H.
Defined.

(** * Further properties of the component *)

(** ** Shapes of the handlers' results *)

Lemma start_cases (st : State) :
  handleGenerate_start st = (setError (Some MSG_NO_IMAGE) st, None)
  \/ handleGenerate_start st = (setError (Some MSG_NO_STYLE) st, None)
  \/ exists request,
       handleGenerate_start st
       = (setError None (setIsGenerating true st), Some request).
Proof.
  unfold handleGenerate_start.
  destruct (originalImage st) as [img|]; [|now left].
  destruct (negb (Js.truthy img)); [now left|].
  destruct (prompt_missing (promptText st)); [now right; left|].
  right; right. eexists. reflexivity.
Qed.

Lemma or_else_nonempty (o : option string) (d : string) :
  d <> "" -> Js.or_else o d <> "".
Proof.
  intros Hd. destruct o as [s|]; simpl; [|exact Hd].
  destruct (Js.truthy s) eqn:E; [now apply truthy_true_iff | exact Hd].
Qed.

Lemma scan_parts_cases (ps : list Genai.Part) (st : State) :
  scan_parts ps st = (st, false)
  \/ exists b, scan_parts ps st = (setGeneratedImage (Some (imgUrl b)) st, true).
Proof.
  induction ps as [|part rest IH]; simpl; [now left|].
  destruct (Genai.inlineData part) as [b|]; [right; now exists b | exact IH].
Qed.

Lemma resume_cases (o : Genai.Outcome) (st : State) :
  (exists m, m <> ""
             /\ handleGenerate_resume o st
                = setIsGenerating false (setError (Some m) st))
  \/ (exists b, handleGenerate_resume o st
                = setIsGenerating false
                    (setGeneratedImage (Some (imgUrl b)) st)).
Proof.
  destruct o as [response|err].
  - unfold handleGenerate_resume, try_block.
    destruct (Genai.candidates response) as [[|c cs]|].
    + left. exists MSG_NO_RESULT. split; [discriminate | reflexivity].
    + destruct (scan_parts_cases (Genai.parts (Genai.content c)) st)
        as [E|[b E]]; rewrite E.
      * left. exists MSG_NO_RESULT. split; [discriminate | reflexivity].
      * right. now exists b.
    + left. exists MSG_NO_RESULT. split; [discriminate | reflexivity].
  - left. exists (Js.or_else (Genai.message err) MSG_FALLBACK). split.
    + apply or_else_nonempty. discriminate.
    + reflexivity.
Qed.

Lemma processFile_cases (file : File) (st : State) :
  (Js.startsWith (type file) "image/" = true
   /\ processFile file st = (st, Some file))
  \/ (Js.startsWith (type file) "image/" = false
      /\ processFile file st = (setError (Some MSG_NOT_IMAGE) st, None)).
Proof.
  unfold processFile.
  destruct (Js.startsWith (type file) "image/"); simpl; auto.
Qed.

(** ** Download *)

Lemma uint_digits (d : Decimal.uint) :
  all_digits (NilEmpty.string_of_uint d) = true.
Proof. induction d; simpl; auto. Qed.

Lemma decimal_digits (n : N) :
  all_digits (decimal n) = true /\ decimal n <> "".
Proof.
  unfold decimal, NilZero.string_of_uint.
  destruct (N.to_uint n) eqn:E; simpl;
    try (split; [apply uint_digits | discriminate]).
  split; [reflexivity | discriminate].
Qed.

(** X1.  Download does nothing when there is no generated image ([null] or
    the empty string).  Otherwise it offers exactly the generated data-URI
    under the name "styled-image-" + digits + ".png", the digits being the
    decimal timestamp; the name does not depend on the image, so the
    extension is ".png" whatever media type the data-URI declares. *)
Theorem handleDownload_spec (now : N) (st : State) :
  (Js.truthy_opt (generatedImage st) = false -> handleDownload now st = None)
  /\ (forall url, generatedImage st = Some url -> url <> "" ->
      handleDownload now st
      = Some (mkAnchor url ("styled-image-" ++ decimal now ++ ".png")))
  /\ all_digits (decimal now) = true
  /\ decimal now <> "".
Proof.
  unfold handleDownload. split; [|split; [|apply decimal_digits]].
  - destruct (generatedImage st) as [url|]; simpl; [|reflexivity].
    now intros ->.
  - intros url -> Hne. apply truthy_true_iff in Hne. now rewrite Hne.
Qed.

Lemma handleDownload_spec_witness :
  let jpeg := setGeneratedImage (Some "data:image/jpeg;base64,AAAA") initial in
  handleDownload 1762100000000 initial = None
  /\ handleDownload 1762100000000 jpeg
     = Some (mkAnchor "data:image/jpeg;base64,AAAA"
               "styled-image-1762100000000.png").
Proof.
  intros jpeg. split.
  - apply (proj1 (handleDownload_spec 1762100000000 initial)). reflexivity.
  - apply (proj1 (proj2 (handleDownload_spec 1762100000000 jpeg))
             "data:image/jpeg;base64,AAAA");
      [reflexivity | discriminate].
Defined.

(** ** Drag and drop, and uploads on the running page *)

(** X2.  A drop is the picker's handler run after the drag highlight is
    cleared: whatever is dropped (nothing, a non-image, an image),
    [isDragging] is false afterwards, and the file is validated, rejected or
    queued for reading exactly as by the picker. *)
Theorem handleDrop_as_picker (files0 : option File) (st : State) :
  handleDrop files0 st = handleFileChange files0 (handleDragLeave st)
  /\ isDragging (fst (handleDrop files0 st)) = false
  /\ (files0 = None -> handleDrop files0 st = (setIsDragging false st, None))
  /\ (forall file, files0 = Some file ->
      Js.startsWith (type file) "image/" = false ->
      handleDrop files0 st
      = (setError (Some "請上傳圖片檔案 (JPEG, PNG 等)") (setIsDragging false st),
         None))
  /\ (forall file, files0 = Some file ->
      Js.startsWith (type file) "image/" = true ->
      handleDrop files0 st = (setIsDragging false st, Some file)).
Proof.
  split; [destruct files0; reflexivity|]. split.
  - destruct files0 as [file|]; [|reflexivity]. unfold handleDrop.
    destruct (processFile_cases file (setIsDragging false st))
      as [[_ E]|[_ E]]; rewrite E; reflexivity.
  - split; [now intros ->|]. split.
    + intros file -> H. unfold handleDrop, processFile. now rewrite H.
    + intros file -> H. unfold handleDrop, processFile. now rewrite H.
Qed.

Lemma handleDrop_as_picker_witness :
  let dragging := handleDragOver initial in
  handleDrop (Some (mkFile "text/plain" "hello")) dragging
  = (setError (Some "請上傳圖片檔案 (JPEG, PNG 等)") (setIsDragging false dragging),
     None)
  /\ handleDrop (Some sample_png) dragging
     = (setIsDragging false dragging, Some sample_png)
  /\ handleDrop None dragging = (setIsDragging false dragging, None).
Proof.
  intros dragging.
  destruct (handleDrop_as_picker (Some (mkFile "text/plain" "hello")) dragging)
    as [_ [_ [_ [Hbad _]]]].
  destruct (handleDrop_as_picker (Some sample_png) dragging)
    as [_ [_ [_ [_ Hgood]]]].
  destruct (handleDrop_as_picker None dragging) as [_ [_ [Hnone _]]].
  split; [apply (Hbad _ eq_refl); reflexivity|].
  split; [apply (Hgood _ eq_refl); reflexivity | apply Hnone; reflexivity].
Defined.

Lemma nth_error_snoc {A : Type} (xs : list A) (x : A) :
  nth_error (xs ++ [x]) (length xs) = Some x.
Proof. induction xs as [|h t IH]; simpl; [reflexivity | exact IH]. Qed.

Lemma remove_nth_snoc {A : Type} (xs : list A) (x : A) :
  remove_nth (length xs) (xs ++ [x]) = xs.
Proof. induction xs as [|h t IH]; simpl; [reflexivity | now rewrite IH]. Qed.

(** X3.  Choosing an image file in the picker changes no state cell at
    first; it only queues the file for reading.  When that read completes,
    the page shows the new original with the file's media type, has no
    generated image and no error, and keeps the style selection, the custom
    text, the busy flag and the drag highlight; the reads queued before are
    still queued, and the requests in flight are untouched. *)
Theorem upload_completes (w : World) (file : File) (result : string) :
  Js.startsWith (type file) "image/" = true ->
  let w1 := step w (FileChange (Some file)) in
  let w2 := step w1 (ReaderLoad (length (reading w)) result) in
  ui w1 = ui w
  /\ reading w1 = (reading w ++ [file])%list
  /\ originalImage (ui w2) = Some result
  /\ mimeType (ui w2) = type file
  /\ generatedImage (ui w2) = None
  /\ error (ui w2) = None
  /\ selectedStyle (ui w2) = selectedStyle (ui w)
  /\ customStyle (ui w2) = customStyle (ui w)
  /\ isGenerating (ui w2) = isGenerating (ui w)
  /\ isDragging (ui w2) = isDragging (ui w)
  /\ reading w2 = reading w
  /\ inflight w2 = inflight w.
Proof.
  intros H. destruct w as [st rd fl]. simpl.
  unfold processFile. rewrite H. simpl.
  rewrite nth_error_snoc, remove_nth_snoc. simpl. repeat split.
Qed.

Lemma upload_completes_witness :
  let w := step sample_world RemoveImage in
  let w2 := step (step w (FileChange (Some sample_png)))
              (ReaderLoad 1 "data:image/png;base64,EEEE") in
  originalImage (ui w2) = Some "data:image/png;base64,EEEE"
  /\ mimeType (ui w2) = "image/png"
  /\ reading w2 = [sample_jpeg].
Proof.
  intros w w2.
  destruct (upload_completes w sample_png "data:image/png;base64,EEEE" eq_refl)
    as [_ [_ [Ho [Hm [_ [_ [_ [_ [_ [_ [Hr _]]]]]]]]]]].
  split; [exact Ho|]. split; [exact Hm | exact Hr].
Defined.

(** ** Invariants of the running page *)

(** Case analysis of one event: every conditional of [step] and of the
    handler it runs is decided, and the handler's result is put in the shape
    given by the lemmas above. *)
Ltac step_analysis w e :=
  let st := fresh "st" in
  let rd := fresh "rd" in
  let fl := fresh "fl" in
  let E := fresh "E" in
  destruct w as [st rd fl];
  destruct e as [f| | |f| |n| |v| |k result|k o]; simpl;
  [ destruct f as [file|]; simpl;
    [ destruct (processFile_cases file st) as [[Hty E]|[Hty E]];
      rewrite E; simpl | ]
  | destruct (Js.truthy_opt (originalImage st)) eqn:Hshown; simpl
  | destruct (Js.truthy_opt (originalImage st)) eqn:Hshown; simpl
  | destruct (Js.truthy_opt (originalImage st)) eqn:Hshown; simpl;
    [ | unfold handleDrop; destruct f as [file|]; simpl;
        [ destruct (processFile_cases file (setIsDragging false st))
            as [[Hty E]|[Hty E]]; rewrite E; simpl | ] ]
  | destruct (Js.truthy_opt (originalImage st)) eqn:Hshown; simpl
  | destruct (nth_error PRESET_STYLES n) as [style|] eqn:Hn; simpl
  | idtac
  | destruct (selectedStyle st =? "custom") eqn:Hc; simpl
  | destruct (generate_disabled st) eqn:Hd; simpl;
    [ | destruct (start_cases st) as [E|[E|[request E]]]; rewrite E; simpl ]
  | destruct (nth_error rd k) as [file|] eqn:Hk; simpl
  | destruct (nth_error fl k) as [request|] eqn:Hk; simpl;
    [ destruct (resume_cases o st) as [[m [Hm E]]|[b E]]; rewrite E; simpl
    | ] ].

Lemma run_preserves (P : World -> Prop) :
  (forall w e, P w -> P (step w e)) ->
  forall es w, P w -> P (run es w).
Proof.
  intros Hstep es. induction es as [|e es IH]; simpl; intros w H;
    [assumption|].
  apply IH. now apply Hstep.
Qed.

Lemma catalog_card_id (n : nat) (style : StylePreset) :
  nth_error PRESET_STYLES n = Some style ->
  In (id style) (map id PRESET_STYLES).
Proof. intros H. apply in_map. eapply nth_error_In. exact H. Qed.

Lemma step_style_known (w : World) (e : Event) :
  style_known (ui w) -> style_known (ui (step w e)).
Proof.
  unfold style_known. step_analysis w e; simpl; auto.
  intros _. right. exact (catalog_card_id n style Hn).
Qed.

Lemma run_style_known (es : list Event) : style_known (ui (run es boot)).
Proof.
  apply (run_preserves (fun w => style_known (ui w))).
  - intros w e. apply step_style_known.
  - right. simpl. now left.
Qed.

Lemma find_by_id_exists (sel : string) :
  In sel (map id PRESET_STYLES) ->
  exists e, find (fun s => id s =? sel) PRESET_STYLES = Some e.
Proof.
  generalize PRESET_STYLES. intros l.
  induction l as [|a l IH]; simpl; [contradiction|].
  intros [H|H].
  - rewrite H, String.eqb_refl. now exists a.
  - destruct (id a =? sel); [now exists a | now apply IH].
Qed.

Lemma catalog_prompt_present (e : StylePreset) :
  In e PRESET_STYLES -> prompt_missing (Some (prompt e)) = false.
Proof.
  simpl. intros [<-|[<-|[<-|[<-|[<-|[]]]]]]; reflexivity.
Qed.

Lemma promptText_known (st : State) :
  style_known st ->
  (selectedStyle st = "custom" /\ promptText st = Some (customStyle st))
  \/ (selectedStyle st <> "custom"
      /\ exists e, In e PRESET_STYLES /\ id e = selectedStyle st
                   /\ promptText st = Some (prompt e)
                   /\ prompt_missing (Some (prompt e)) = false).
Proof.
  intros [Hc|Hin].
  - left. split; [assumption|]. unfold promptText. now rewrite Hc.
  - right. pose proof (catalog_id_not_custom _ Hin) as Hc.
    split; [assumption|].
    destruct (find_by_id_exists _ Hin) as [e Hf].
    destruct (find_by_id_some _ _ Hf) as [He [Hid _]].
    exists e. split; [assumption|]. split; [assumption|]. split.
    + unfold promptText. apply String.eqb_neq in Hc. now rewrite Hc, Hf.
    + now apply catalog_prompt_present.
Qed.

(** X4.  In every reachable state the selection is "custom" or the id of a
    catalog entry, so the prompt lookup of the generation handler always
    finds its entry: [promptText] is never [undefined], and for a preset it
    is that entry's non-blank prompt. *)
Theorem selection_always_resolves (es : list Event) :
  let st := ui (run es boot) in
  (selectedStyle st = "custom" \/ In (selectedStyle st) (map id PRESET_STYLES))
  /\ promptText st <> None
  /\ (selectedStyle st <> "custom" ->
      exists e, In e PRESET_STYLES /\ id e = selectedStyle st
                /\ promptText st = Some (prompt e)
                /\ Js.trim (prompt e) <> "").
Proof.
  intros st. pose proof (run_style_known es) as Hk. fold st in Hk.
  split; [exact Hk|].
  destruct (promptText_known st Hk) as [[Hc Hp]|[Hc [e [Hin [Hid [Hp Hm]]]]]].
  - split; [congruence | contradiction].
  - split; [congruence|]. intros _. exists e. repeat split; try assumption.
    intros Ht. simpl in Hm. apply orb_false_iff in Hm. destruct Hm as [_ Hm].
    apply String.eqb_neq in Hm. contradiction.
Qed.

Lemma selection_always_resolves_witness :
  let st := ui (run [ChooseCustom; EditCustom "ink wash"; ChoosePreset 9;
                     ChoosePreset 4] boot) in
  selectedStyle st = "3d"
  /\ exists e, In e PRESET_STYLES /\ id e = "3d"
               /\ promptText st = Some (prompt e).
Proof.
  intros st. split; [reflexivity|].
  destruct (selection_always_resolves
              [ChooseCustom; EditCustom "ink wash"; ChoosePreset 9;
               ChoosePreset 4]) as [_ [_ H]].
  destruct (H ltac:(discriminate)) as [e [Hin [Hid [Hp _]]]].
  exists e. split; [exact Hin|]. split; [exact Hid | exact Hp].
Defined.

Lemma enabled_start (st : State) :
  style_known st -> generate_disabled st = false ->
  exists img p,
    originalImage st = Some img /\ img <> ""
    /\ promptText st = Some p /\ Js.trim p <> ""
    /\ handleGenerate_start st
       = (setError None (setIsGenerating true st),
          Some (build_request img (mimeType st) p)).
Proof.
  intros Hk Hd. unfold generate_disabled in Hd.
  apply orb_false_iff in Hd. destruct Hd as [Hd Hcustom].
  apply orb_false_iff in Hd. destruct Hd as [Himg _].
  apply negb_false_iff, truthy_opt_true_iff in Himg.
  destruct Himg as [img [Eimg Hne]].
  assert (Hp : exists p, promptText st = Some p
                         /\ prompt_missing (Some p) = false).
  { destruct (promptText_known st Hk) as [[Hc Hp]|[_ [e [_ [_ [Hp Hm]]]]]].
    - exists (customStyle st). split; [exact Hp|].
      rewrite Hc in Hcustom. simpl in Hcustom.
      apply negb_false_iff in Hcustom. simpl.
      assert (Ht : Js.trim (customStyle st) <> "")
        by now apply truthy_true_iff.
      apply orb_false_iff. split.
      + apply negb_false_iff, truthy_true_iff. intros E. apply Ht.
        now rewrite E.
      + now apply String.eqb_neq.
    - now exists (prompt e). }
  destruct Hp as [p [Hp Hm]].
  exists img, p. split; [assumption|]. split; [assumption|].
  split; [assumption|]. split.
  - simpl in Hm. apply orb_false_iff in Hm. destruct Hm as [_ Hm].
    now apply String.eqb_neq.
  - rewrite (start_with_image st img Eimg Hne), Hp, Hm. reflexivity.
Qed.

(** X5.  On the running page a click on an enabled generate button always
    gets past both guards of the handler: it raises the busy flag, clears
    the error and puts exactly one request in flight.  The two guard
    messages can therefore not be produced through the button. *)
Theorem enabled_click_issues_request (es : list Event) :
  let w := run es boot in
  generate_disabled (ui w) = false ->
  exists img p,
    originalImage (ui w) = Some img
    /\ promptText (ui w) = Some p
    /\ Js.trim p <> ""
    /\ step w Generate
       = mkWorld (setError None (setIsGenerating true (ui w)))
           (reading w)
           (inflight w ++ [build_request img (mimeType (ui w)) p]).
Proof.
  intros w Hd.
  destruct (enabled_start (ui w) (run_style_known es) Hd)
    as [img [p [Eimg [_ [Hp [Ht E]]]]]].
  exists img, p. repeat split; try assumption.
  simpl. rewrite Hd, E. reflexivity.
Qed.

Lemma enabled_click_issues_request_witness :
  let w := run [FileChange (Some sample_png); ReaderLoad 0 sample_uri;
                ChooseCustom; EditCustom " oil painting "] boot in
  exists request,
    inflight (step w Generate) = [request]
    /\ isGenerating (ui (step w Generate)) = true.
Proof.
  intros w.
  destruct (enabled_click_issues_request
              [FileChange (Some sample_png); ReaderLoad 0 sample_uri;
               ChooseCustom; EditCustom " oil painting "] eq_refl)
    as [img [p [_ [_ [_ E]]]]].
  exists (build_request img (mimeType (ui w)) p).
  fold w in E. rewrite E. split; reflexivity.
Defined.

Lemma step_flight (w : World) (e : Event) :
  flight_invariant w -> flight_invariant (step w e).
Proof.
  unfold flight_invariant. step_analysis w e; simpl; auto.
  - (* abort at the image guard *)
    rewrite app_nil_r. auto.
  - (* abort at the style guard *)
    rewrite app_nil_r. auto.
  - (* a request goes out: nothing was in flight *)
    unfold generate_disabled in Hd.
    apply orb_false_iff in Hd. destruct Hd as [Hd _].
    apply orb_false_iff in Hd. destruct Hd as [_ Hgen].
    intros [[_ ->]|[Ht _]]; [|congruence].
    right. split; [reflexivity|]. now exists request.
  - (* a failure settles the only request *)
    intros [[_ ->]|[_ [r ->]]]; [destruct k; discriminate|].
    destruct k as [|k]; [|destruct k; discriminate]. now left.
  - (* so does a success *)
    intros [[_ ->]|[_ [r ->]]]; [destruct k; discriminate|].
    destruct k as [|k]; [|destruct k; discriminate]. now left.
Qed.

Lemma run_flight (es : list Event) : flight_invariant (run es boot).
Proof.
  apply (run_preserves flight_invariant).
  - intros w e. apply step_flight.
  - now left.
Qed.

(** X6.  At every moment at most one request is in flight, and the busy flag
    is raised exactly while one is: the button's [disabled] attribute is the
    only gate, and it suffices. *)
Theorem single_request_in_flight (es : list Event) :
  let w := run es boot in
  length (inflight w) <= 1
  /\ (isGenerating (ui w) = true <-> inflight w <> [])
  /\ (isGenerating (ui w) = true -> step w Generate = w).
Proof.
  intros w. destruct (run_flight es) as [[Hg Hf]|[Hg [r Hf]]]; fold w in Hg, Hf.
  - rewrite Hf, Hg. simpl. split; [lia|]. split; [|discriminate].
    split; [discriminate | congruence].
  - rewrite Hf, Hg. simpl. split; [lia|]. split.
    + split; [discriminate | reflexivity].
    + intros _. unfold generate_disabled. rewrite Hg.
      now rewrite orb_true_r.
Qed.

Lemma single_request_in_flight_witness :
  let w := run [FileChange (Some sample_png); ReaderLoad 0 sample_uri;
                Generate; ChoosePreset 1; Generate; Generate] boot in
  length (inflight w) = 1 /\ step w Generate = w.
Proof.
  intros w. split; [reflexivity|].
  apply (proj2 (proj2 (single_request_in_flight
                         [FileChange (Some sample_png); ReaderLoad 0 sample_uri;
                          Generate; ChoosePreset 1; Generate; Generate]))).
  reflexivity.
Defined.

Lemma step_error_nonempty (w : World) (e : Event) :
  error (ui w) <> Some "" -> error (ui (step w e)) <> Some "".
Proof.
  step_analysis w e; simpl; auto; try discriminate.
  intros _ [= H]. contradiction.
Qed.

(** X7.  The error cell never holds the empty string: it is [null], one of
    the four fixed messages, or a non-empty rejection message.  The banner,
    rendered under [error && ...], is therefore shown whenever an error is
    set. *)
Theorem error_never_empty (es : list Event) :
  let st := ui (run es boot) in
  error st <> Some ""
  /\ (error st <> None -> Js.truthy_opt (error st) = true).
Proof.
  intros st.
  assert (H : error st <> Some "").
  { apply (run_preserves (fun w => error (ui w) <> Some "")).
    - intros w e. apply step_error_nonempty.
    - discriminate. }
  split; [exact H|]. intros Hn.
  destruct (error st) as [m|]; [|contradiction]. simpl.
  apply truthy_true_iff. congruence.
Qed.

Lemma error_never_empty_witness :
  Js.truthy_opt
    (error (ui (run [FileChange (Some sample_png); ReaderLoad 0 sample_uri;
                     Generate;
                     Settle 0 (Genai.Rejected (Genai.mkThrown (Some "")))]
                  boot))) = true.
Proof.
  apply (proj2 (error_never_empty
                  [FileChange (Some sample_png); ReaderLoad 0 sample_uri;
                   Generate;
                   Settle 0 (Genai.Rejected (Genai.mkThrown (Some "")))])).
  discriminate.
Defined.

(** ** What each kind of event can change *)

(** X8.  The custom text is changed by typing into the text area and by
    nothing else: uploads, removals, drags, generations and their outcomes,
    and switching between cards all keep it, so it is still there when the
    user comes back to the custom card.  Likewise the selection is changed
    only by clicking a card, and typing is ignored unless the custom card is
    the selected one. *)
Theorem style_inputs_frame (w : World) (e : Event) :
  ((forall value, e <> EditCustom value) ->
   customStyle (ui (step w e)) = customStyle (ui w))
  /\ ((forall n, e <> ChoosePreset n) -> e <> ChooseCustom ->
      selectedStyle (ui (step w e)) = selectedStyle (ui w))
  /\ (forall value, e = EditCustom value ->
      (selectedStyle (ui w) = "custom" ->
       customStyle (ui (step w e)) = value)
      /\ (selectedStyle (ui w) <> "custom" -> step w e = w)).
Proof.
  split; [|split].
  - intros Hedit. step_analysis w e; simpl; auto.
    now destruct (Hedit v).
  - intros Hcard Hcustom. step_analysis w e; simpl; auto.
    + now destruct (Hcard n).
    + now destruct Hcustom.
  - intros value ->. destruct w as [st rd fl]. simpl. split.
    + intros ->. reflexivity.
    + intros H. apply String.eqb_neq in H. now rewrite H.
Qed.

Lemma style_inputs_frame_witness :
  let w := run [ChooseCustom; EditCustom "ink wash"] boot in
  customStyle (ui (step (step w (ChoosePreset 2)) ChooseCustom)) = "ink wash"
  /\ step (step w (ChoosePreset 2)) (EditCustom "lost") = step w (ChoosePreset 2).
Proof.
  intros w. split.
  - rewrite (proj1 (style_inputs_frame (step w (ChoosePreset 2)) ChooseCustom))
      by discriminate.
    rewrite (proj1 (style_inputs_frame w (ChoosePreset 2))) by discriminate.
    reflexivity.
  - apply (proj2 (proj2 (style_inputs_frame (step w (ChoosePreset 2))
                           (EditCustom "lost"))) "lost" eq_refl).
    discriminate.
Defined.

(** X9.  A generation, from the click to the settled outcome, writes only
    the generated image, the error and the busy flag: the original, its
    media type, the selection, the custom text and the drag highlight come
    out as they went in, whatever the service answers. *)
Theorem handleGenerate_frame
  (service : Genai.Request -> Genai.Outcome) (st : State) :
  let st' := handleGenerate service st in
  originalImage st' = originalImage st
  /\ mimeType st' = mimeType st
  /\ selectedStyle st' = selectedStyle st
  /\ customStyle st' = customStyle st
  /\ isDragging st' = isDragging st.
Proof.
  unfold handleGenerate.
  destruct (start_cases st) as [E|[E|[request E]]]; rewrite E; simpl;
    try (repeat split; reflexivity).
  destruct (resume_cases (service request)
              (setError None (setIsGenerating true st)))
    as [[m [_ R]]|[b R]]; rewrite R; simpl; repeat split.
Qed.

(** ** Whole generations *)

(** X10.  A generation that succeeds, run from a state with an image and a
    usable prompt, ends with the new data-URI as generated image, no error
    (an earlier error message is gone) and the busy flag down; the request
    the service saw is the one built from the state at the click. *)
Theorem generation_succeeds
  (service : Genai.Request -> Genai.Outcome) (st : State)
  (img p : string) (c : Genai.Candidate) (more : list Genai.Candidate)
  (before after : list Genai.Part) (part : Genai.Part) (b : Genai.Blob) :
  originalImage st = Some img -> img <> "" ->
  promptText st = Some p -> Js.trim p <> "" ->
  service (build_request img (mimeType st) p)
  = Genai.Resolved (Genai.mkResponse (Some (c :: more))) ->
  Genai.parts (Genai.content c) = (before ++ part :: after)%list ->
  Forall (fun q => Genai.inlineData q = None) before ->
  Genai.inlineData part = Some b ->
  let st' := handleGenerate service st in
  generatedImage st' = Some (imgUrl b)
  /\ error st' = None
  /\ isGenerating st' = false
  /\ st' = setIsGenerating false
             (setError None (setGeneratedImage (Some (imgUrl b)) st)).
Proof.
  intros Eimg Hne Hp Ht Hs Hparts Hbefore Hpart.
  assert (Hm : prompt_missing (Some p) = false).
  { simpl. apply orb_false_iff. split.
    - apply negb_false_iff, truthy_true_iff. intros E. apply Ht. now rewrite E.
    - now apply String.eqb_neq. }
  unfold handleGenerate.
  rewrite (start_with_image st img Eimg Hne), Hp, Hm. simpl. rewrite Hs.
  unfold handleGenerate_resume, try_block. simpl.
  rewrite Hparts, (scan_parts_skip before _ _ Hbefore). simpl.
  rewrite Hpart. simpl. repeat split.
Qed.

Lemma generation_succeeds_witness :
  let st := setError (Some "quota exceeded")
              (setSelectedStyle "sketch"
                 (reader_onload sample_png sample_uri initial)) in
  let service := fun _ : Genai.Request =>
    Genai.Resolved
      (Genai.mkResponse
         (Some [Genai.mkCandidate
                  (Genai.mkContent
                     [inline_part "AAAA" (Some "image/jpeg")])])) in
  generatedImage (handleGenerate service st) = Some "data:image/jpeg;base64,AAAA"
  /\ error (handleGenerate service st) = None
  /\ isGenerating (handleGenerate service st) = false.
Proof.
  intros st service.
  destruct (generation_succeeds service st sample_uri
              "Pencil sketch style, detailed, black and white, hand-drawn"
              (Genai.mkCandidate
                 (Genai.mkContent [inline_part "AAAA" (Some "image/jpeg")]))
              [] [] [] (inline_part "AAAA" (Some "image/jpeg"))
              (Genai.mkBlob (Some "AAAA") (Some "image/jpeg")))
    as [Hg [He [Hb _]]]; try reflexivity; try discriminate.
  - constructor.
  - split; [exact Hg|]. split; [exact He | exact Hb].
Defined.

(** ** The image data of the request *)

Lemma split_nonempty (c : ascii) (s : string) : Js.split c s <> [].
Proof.
  induction s as [|a r IH]; simpl; [discriminate|].
  destruct (Ascii.eqb a c); [discriminate|].
  destruct (Js.split c r); [contradiction | discriminate].
Qed.

Lemma base64Data_none_iff (img : string) :
  base64Data img = None <-> has_char "," img = false.
Proof.
  unfold base64Data, Js.index.
  induction img as [|a r IH]; simpl; [tauto|].
  destruct (Ascii.eqb a ",") eqn:E; simpl.
  - pose proof (split_nonempty "," r) as Hne.
    destruct (Js.split "," r); [contradiction|]. simpl.
    split; discriminate.
  - pose proof (split_nonempty "," r) as Hne.
    destruct (Js.split "," r) as [|h t]; [contradiction|]. exact IH.
Qed.

(** X11.  The image data sent is the text between the first and the second
    comma of the original.  An original without any comma yields no data at
    all, and the request is still issued, with the data left undefined; of
    an original with further commas only the part up to the second one is
    sent. *)
Theorem base64Data_edges (img : string) :
  (base64Data img = None <-> has_char "," img = false)
  /\ (forall pre mid rest,
      img = pre ++ "," ++ mid ++ "," ++ rest ->
      has_char "," pre = false -> has_char "," mid = false ->
      base64Data img = Some mid)
  /\ (forall st p,
      originalImage st = Some img -> img <> "" ->
      promptText st = Some p -> Js.trim p <> "" ->
      has_char "," img = false ->
      snd (handleGenerate_start st)
      = Some (Genai.mkRequest MODEL
                (Genai.mkContent
                   [ Genai.mkPart
                       (Some (Genai.mkBlob None (Some (mimeType st)))) None;
                     Genai.mkPart None (Some (instruction p)) ]))).
Proof.
  split; [apply base64Data_none_iff|]. split.
  - intros pre mid rest -> Hpre Hmid. unfold base64Data, Js.index. simpl.
    rewrite (split_first_sep "," pre _ Hpre).
    rewrite (split_first_sep "," mid rest Hmid). reflexivity.
  - intros st p Eimg Hne Hp Ht Hno.
    assert (Hm : prompt_missing (Some p) = false).
    { simpl. apply orb_false_iff. split.
      - apply negb_false_iff, truthy_true_iff. intros E. apply Ht.
        now rewrite E.
      - now apply String.eqb_neq. }
    rewrite (start_with_image st img Eimg Hne), Hp, Hm. simpl.
    unfold build_request.
    now rewrite (proj2 (base64Data_none_iff img) Hno).
Qed.

Lemma base64Data_edges_witness :
  base64Data "not a data URI" = None
  /\ base64Data "data:image/png;base64,AAAA,BBBB,CCCC" = Some "AAAA"
  /\ exists request,
       snd (handleGenerate_start
              (setOriginalImage (Some "not a data URI") initial))
       = Some request.
Proof.
  split; [|split].
  - apply (proj1 (base64Data_edges "not a data URI")). reflexivity.
  - apply (proj1 (proj2 (base64Data_edges
                           "data:image/png;base64,AAAA,BBBB,CCCC"))
             "data:image/png;base64" "AAAA" "BBBB,CCCC"); reflexivity.
  - eexists.
    apply (proj2 (proj2 (base64Data_edges "not a data URI"))
             (setOriginalImage (Some "not a data URI") initial)
             "Anime style, Studio Ghibli, high quality, vibrant colors, 2D illustration");
      try reflexivity; discriminate.
Defined.

(** ** A late response *)

(** X12.  A response that arrives after the image was removed is still
    applied: upload, start a generation, remove the image, let the request
    settle with an image, and the page holds a generated image (the result
    panel and its download are shown) although no original is loaded.
    Nothing ties a response to the original it was made from. *)
Theorem late_response_is_applied
  (file : File) (result : string) (c : Genai.Candidate)
  (more : list Genai.Candidate) (before after : list Genai.Part)
  (part : Genai.Part) (b : Genai.Blob) :
  Js.startsWith (type file) "image/" = true ->
  result <> "" ->
  Genai.parts (Genai.content c) = (before ++ part :: after)%list ->
  Forall (fun q => Genai.inlineData q = None) before ->
  Genai.inlineData part = Some b ->
  let w := run (remove_before_settle file result
                  (Genai.Resolved (Genai.mkResponse (Some (c :: more)))))
             boot in
  originalImage (ui w) = None
  /\ generatedImage (ui w) = Some (imgUrl b)
  /\ error (ui w) = None
  /\ isGenerating (ui w) = false
  /\ inflight w = [].
Proof.
  intros Hty Hne Hparts Hbefore Hpart.
  apply truthy_true_iff in Hne.
  unfold remove_before_settle, run. simpl.
  unfold processFile. rewrite Hty. simpl.
  unfold generate_disabled. simpl. rewrite Hne. simpl.
  unfold handleGenerate_start. simpl. rewrite Hne. simpl.
  rewrite Hne. simpl.
  unfold handleGenerate_resume, try_block. simpl.
  rewrite Hparts, (scan_parts_skip before _ _ Hbefore). simpl.
  rewrite Hpart. simpl. repeat split.
Qed.

Lemma late_response_is_applied_witness :
  let w := run (remove_before_settle sample_png sample_uri
                  (Genai.Resolved sample_response)) boot in
  originalImage (ui w) = None
  /\ generatedImage (ui w) = Some "data:image/png;base64,BBBB".
Proof.
  intros w.
  destruct (late_response_is_applied sample_png sample_uri
              (Genai.mkCandidate
                 (Genai.mkContent
                    [text_part "Here is your image.";
                     inline_part "BBBB" None;
                     inline_part "CCCC" (Some "image/jpeg")]))
              [] [text_part "Here is your image."]
              [inline_part "CCCC" (Some "image/jpeg")]
              (inline_part "BBBB" None) (Genai.mkBlob (Some "BBBB") None))
    as [Ho [Hg _]]; try reflexivity; try discriminate.
  - repeat constructor.
  - split; [exact Ho | exact Hg].
Defined.

(** ** The custom text at the guard *)

(** X13.  With the custom card selected and an image loaded, the handler
    refuses exactly the texts made of white space only (the empty text
    included).  Any other text goes into the instruction as typed: the
    trimming serves the test alone, so leading and trailing white space is
    sent along. *)
Theorem custom_text_gate (st : State) (img : string) :
  originalImage st = Some img -> img <> "" ->
  selectedStyle st = "custom" ->
  (whitespace_only (customStyle st) ->
   handleGenerate_start st = (setError (Some "請選擇或輸入風格") st, None))
  /\ (~ whitespace_only (customStyle st) ->
      handleGenerate_start st
      = (setError None (setIsGenerating true st),
         Some (Genai.mkRequest MODEL
                 (Genai.mkContent
                    [ Genai.mkPart
                        (Some (Genai.mkBlob (base64Data img)
                                 (Some (mimeType st)))) None;
                      Genai.mkPart None
                        (Some ("Convert this image to the following style: "
                               ++ customStyle st
                               ++ ". Keep the main subject and composition the same.")) ])))).
Proof.
  intros Eimg Hne Hc.
  assert (Hp : promptText st = Some (customStyle st)).
  { unfold promptText. now rewrite Hc. }
  rewrite (start_with_image st img Eimg Hne), Hp. split.
  - intros Hw.
    assert (Hm : prompt_missing (Some (customStyle st)) = true).
    { apply prompt_missing_iff. right. exists (customStyle st).
      split; [reflexivity | now apply trim_empty_iff]. }
    now rewrite Hm.
  - intros Hw.
    destruct (prompt_missing (Some (customStyle st))) eqn:Hm; [|reflexivity].
    apply prompt_missing_iff in Hm.
    destruct Hm as [Hm|[s [[= <-] Hs]]]; [discriminate|].
    apply trim_empty_iff in Hs. contradiction.
Qed.

Lemma custom_text_gate_witness :
  let loaded := setSelectedStyle "custom"
                  (reader_onload sample_png sample_uri initial) in
  handleGenerate_start (setCustomStyle (String "009" "  ") loaded)
  = (setError (Some "請選擇或輸入風格")
       (setCustomStyle (String "009" "  ") loaded), None)
  /\ option_map (fun r => Genai.parts (Genai.contents r))
       (snd (handleGenerate_start (setCustomStyle "  pop art " loaded)))
     = Some [ Genai.mkPart
                (Some (Genai.mkBlob (Some "AAAA") (Some "image/png"))) None;
              Genai.mkPart None
                (Some "Convert this image to the following style:   pop art . Keep the main subject and composition the same.") ].
Proof.
  intros loaded. split.
  - apply (proj1 (custom_text_gate (setCustomStyle (String "009" "  ") loaded)
                    sample_uri eq_refl ltac:(discriminate) eq_refl)).
    apply trim_empty_iff. reflexivity.
  - rewrite (proj2 (custom_text_gate (setCustomStyle "  pop art " loaded)
                      sample_uri eq_refl ltac:(discriminate) eq_refl)).
    + reflexivity.
    + intros H. apply trim_empty_iff in H. discriminate H.
Defined.
